(** * jx [step create task]: the build-pack pipeline compiler

    A shallow embedding of [pkg/jx/cmd/step_create_task.go] and the
    properties of it that the specification states.  Go strings are byte
    sequences, modelled by [string]; Go maps by [gmap]; the receiver
    [o *StepCreateTaskOptions], the log and the outside world are threaded
    explicitly through a small state-and-error monad. *)

From Stdlib Require Import ZArith Ascii String DecimalString.
From stdpp Require Import base option list gmap strings.

Local Open Scope Z_scope.
Local Open Scope stdpp_scope.

(** ** The Go standard library functions the file calls

    Only the byte-level (ASCII) behaviour is modelled: the inputs of
    interest are shell commands, directory names and version numbers. *)
Module GoStrings.

(** [strip_prefix p s] is [Some r] exactly when [s = p +:+ r]. *)
Fixpoint strip_prefix (p s : string) : option string :=
  match p with
  | EmptyString => Some s
  | String a p' =>
      match s with
      | EmptyString => None
      | String b s' => if Ascii.eqb a b then strip_prefix p' s' else None
      end
  end.

(** [strings.HasPrefix(s, prefix)] *)
Definition HasPrefix (s p : string) : bool :=
  match strip_prefix p s with Some _ => true | None => false end.

(** [strings.TrimPrefix(s, prefix)] *)
Definition TrimPrefix (s p : string) : string :=
  match strip_prefix p s with Some r => r | None => s end.

(** [cut sep s] splits [s] around the leftmost instance of [sep]: what
    [strings.Index] followed by the two slicings [s[:j]] and
    [s[j+len(sep):]] computes. *)
Fixpoint cut (sep s : string) : option (string * string) :=
  match strip_prefix sep s with
  | Some r => Some (EmptyString, r)
  | None =>
      match s with
      | EmptyString => None
      | String c s' =>
          match cut sep s' with
          | Some (a, b) => Some (String c a, b)
          | None => None
          end
      end
  end.

(** The loop of [strings.Replace]: find the next instance, copy what is
    before it, write [new], go on after it; [n] counts the replacements
    left and a negative [n] never reaches zero.  Every round consumes at
    least one byte of [s] when [old] is not empty, so [fuel] bounds it. *)
Fixpoint replace_loop (fuel : nat) (old new s : string) (n : Z) : string :=
  match fuel with
  | O => s
  | S fuel' =>
      if n =? 0 then s
      else match cut old s with
           | None => s
           | Some (a, b) => a +:+ new +:+ replace_loop fuel' old new b (n - 1)
           end
  end.

(** [strings.Replace(s, old, new, n)], for a non-empty [old] (every call
    site passes a non-empty literal; the rune-wise insertion Go performs
    for an empty [old] is outside the model and leaves [s] as it is). *)
Definition Replace (s old new : string) (n : Z) : string :=
  match old with
  | EmptyString => s
  | _ => replace_loop (S (String.length s)) old new s n
  end.

(** [strings.Split(s, sep)] for a non-empty [sep]. *)
Fixpoint split_loop (fuel : nat) (sep s : string) : list string :=
  match fuel with
  | O => [s]
  | S fuel' =>
      match cut sep s with
      | None => [s]
      | Some (a, b) => a :: split_loop fuel' sep b
      end
  end.

Definition Split (s sep : string) : list string :=
  match sep with
  | EmptyString => [s]
  | _ => split_loop (S (String.length s)) sep s
  end.

(** The ASCII white space of [unicode.IsSpace]: tab, line feed, vertical
    tab, form feed, carriage return and space. *)
Definition isSpace (c : ascii) : bool :=
  let n := nat_of_ascii c in
  ((9 <=? n)%nat && (n <=? 13)%nat) || (n =? 32)%nat.

Fixpoint TrimLeft (s : string) : string :=
  match s with
  | EmptyString => EmptyString
  | String c s' => if isSpace c then TrimLeft s' else s
  end.

(** Drops the trailing white space: a byte is kept when something that is
    not white space follows it or it is not white space itself. *)
Fixpoint TrimRight (s : string) : string :=
  match s with
  | EmptyString => EmptyString
  | String c s' =>
      match TrimRight s' with
      | EmptyString => if isSpace c then EmptyString else String c EmptyString
      | r => String c r
      end
  end.

(** [strings.TrimSpace(s)] *)
Definition TrimSpace (s : string) : string := TrimRight (TrimLeft s).

(** [strings.ToUpper(s)] on ASCII letters. *)
Definition upper (c : ascii) : ascii :=
  let n := nat_of_ascii c in
  if ((97 <=? n)%nat && (n <=? 122)%nat) then ascii_of_nat (n - 32) else c.

Fixpoint ToUpper (s : string) : string :=
  match s with
  | EmptyString => EmptyString
  | String c s' => String (upper c) (ToUpper s')
  end.

(** [strings.Join(elems, sep)] *)
Fixpoint Join (elems : list string) (sep : string) : string :=
  match elems with
  | [] => EmptyString
  | [e] => e
  | e :: rest => e +:+ sep +:+ Join rest sep
  end.

(** [strings.Contains(s, substr)] *)
Fixpoint Contains (s substr : string) : bool :=
  match strip_prefix substr s with
  | Some _ => true
  | None =>
      match s with
      | EmptyString => false
      | String _ s' => Contains s' substr
      end
  end.

(** [strconv.Itoa(i)] *)
Definition Itoa (i : Z) : string := NilZero.string_of_int (Z.to_int i).

End GoStrings.

(** [occurs p s]: the text [p] is somewhere in [s]. *)
Definition occurs (p s : string) : Prop := exists a b, s = a +:+ p +:+ b.

(** The instance of [old] after [a] is the leftmost one. *)
Definition leftmost (old a b : string) : Prop :=
  forall a' b', a +:+ old +:+ b = a' +:+ old +:+ b' ->
    (String.length a <= String.length a')%nat.

(** What the spec says of a rewrite, as a relation between a text and its
    rewriting: every instance of [old], found from left to right, gives
    way to [new] and the rest is copied. *)
Inductive RewrittenAll (old new : string) : string -> string -> Prop :=
  | RewrittenAll_none (s : string) :
      ~ occurs old s -> RewrittenAll old new s s
  | RewrittenAll_next (a b b' : string) :
      leftmost old a b -> RewrittenAll old new b b' ->
      RewrittenAll old new (a +:+ old +:+ b) (a +:+ new +:+ b').

(** The same for the first instance only. *)
Inductive RewrittenFirst (old new : string) : string -> string -> Prop :=
  | RewrittenFirst_none (s : string) :
      ~ occurs old s -> RewrittenFirst old new s s
  | RewrittenFirst_found (a b : string) :
      leftmost old a b ->
      RewrittenFirst old new (a +:+ old +:+ b) (a +:+ new +:+ b).

(** ** Data model *)

(** The Kubernetes objects, with the fields the compiler reads or writes. *)
Record EnvVar := mkEnvVar {
  EnvVar_Name : string;
  EnvVar_Value : string }.

Record DownwardAPIVolumeFile := mkDownwardAPIVolumeFile {
  File_Path : string;
  File_FieldPath : string }.

Inductive VolumeSource :=
  | DownwardAPI (items : list DownwardAPIVolumeFile)
  | OtherSource (descr : string).

Record Volume := mkVolume {
  Volume_Name : string;
  Volume_Source : VolumeSource }.

Record VolumeMount := mkVolumeMount {
  VolumeMount_Name : string;
  VolumeMount_MountPath : string;
  VolumeMount_ReadOnly : bool }.

Record Container := mkContainer {
  Container_Name : string;
  Container_Image : string;
  Container_Command : list string;
  Container_Args : list string;
  Container_WorkingDir : string;
  Container_Env : list EnvVar;
  Container_VolumeMounts : list VolumeMount;
  Container_Stdin : bool;
  Container_TTY : bool }.

(** [corev1.Pod], reduced to [Spec.Containers] and [Spec.Volumes]. *)
Record Pod := mkPod {
  Pod_Containers : list Container;
  Pod_Volumes : list Volume }.

Record GitRepository := mkGitRepository {
  Git_Name : string;
  Git_Organisation : string;
  Git_CloneURL : string;
  Git_URL : string }.

(** [jenkinsfile.PipelineStep]: a tree of steps.  Step pointers are taken
    to be non-nil. *)
#[warning="-register-all"] Inductive PipelineStep := mkStep {
  Step_Name : string;
  Step_Command : string;
  Step_Dir : string;
  Step_Container : string;
  Step_When : string;
  Step_Steps : list PipelineStep }.

Record PipelineLifecycle := mkLifecycle {
  Lifecycle_Steps : list PipelineStep }.

Record Param := mkParam {
  Param_Name : string;
  Param_Value : string }.

Record TaskParam := mkTaskParam {
  TaskParam_Name : string;
  TaskParam_Description : string;
  TaskParam_Default : string }.

Record TaskResource := mkTaskResource {
  TaskResource_Name : string;
  TaskResource_Type : string;
  TaskResource_TargetPath : string }.

Record Inputs := mkInputs {
  Inputs_Resources : list TaskResource;
  Inputs_Params : list TaskParam }.

Record Task := mkTask {
  Task_APIVersion : string;
  Task_Kind : string;
  Task_Name : string;
  Task_Namespace : string;
  Task_Labels : gmap string string;
  Task_Steps : list Container;
  Task_Volumes : list Volume;
  Task_Inputs : option Inputs }.

Record PipelineDeclaredResource := mkDeclaredResource {
  Declared_Name : string;
  Declared_Type : string }.

Record PipelineTaskInputResource := mkTaskInputResource {
  InputResource_Name : string;
  InputResource_Resource : string }.

Record TaskRef := mkTaskRef {
  TaskRef_Name : string;
  TaskRef_Kind : string;
  TaskRef_APIVersion : string }.

Record PipelineTask := mkPipelineTask {
  PipelineTask_Name : string;
  PipelineTask_Resources : option (list PipelineTaskInputResource);
  PipelineTask_TaskRef : TaskRef;
  PipelineTask_Params : list Param }.

Record Pipeline := mkPipeline {
  Pipeline_APIVersion : string;
  Pipeline_Kind : string;
  Pipeline_Name : string;
  Pipeline_Namespace : string;
  Pipeline_UID : string;
  Pipeline_Labels : gmap string string;
  Pipeline_Resources : list PipelineDeclaredResource;
  Pipeline_Tasks : list PipelineTask }.

Record PipelineResource := mkPipelineResource {
  Resource_APIVersion : string;
  Resource_Kind : string;
  Resource_Name : string;
  Resource_Labels : gmap string string;
  Resource_Type : string;
  Resource_Params : list Param }.

Record OwnerReference := mkOwnerReference {
  Owner_APIVersion : string;
  Owner_Kind : string;
  Owner_Name : string;
  Owner_UID : string }.

Record PipelineResourceBinding := mkBinding {
  Binding_Name : string;
  Binding_RefName : string;
  Binding_RefAPIVersion : string }.

Record PipelineRun := mkPipelineRun {
  Run_APIVersion : string;
  Run_Kind : string;
  Run_Name : string;
  Run_OwnerReferences : list OwnerReference;
  Run_Labels : gmap string string;
  Run_ServiceAccount : string;
  Run_Trigger : string;
  Run_PipelineRefName : string;
  Run_PipelineRefAPIVersion : string;
  Run_Resources : list PipelineResourceBinding;
  Run_Params : list Param }.

(** [v1.PipelineStructure]: the fields [applyPipeline] stamps, and the
    stages as an opaque payload. *)
Record PipelineStructure := mkStructure {
  Structure_Name : string;
  Structure_OwnerReferences : list OwnerReference;
  Structure_PipelineRef : option string;
  Structure_PipelineRunRef : option string;
  Structure_Stages : string }.

Definition PipelineResourceTypeGit : string := "git".
Definition PipelineResourceTypeImage : string := "image".
Definition NamespacedTaskKind : string := "Task".

(** ** Pipeline configuration

    The types of package [jenkinsfile] are declared outside the file; they
    are given here as the file uses them: the pointers to lifecycles, which
    the file tests for nil, are options, the pointer to the configuration
    itself is taken to be non-nil, and [ParsedPipeline], the declarative
    pipeline of package [syntax], is kept abstract. *)
Section Config.

Context {ParsedPipeline : Type}.

Record PipelineLifecycles := mkLifecycles {
  Setup : option PipelineLifecycle;
  SetVersion : option PipelineLifecycle;
  PreBuild : option PipelineLifecycle;
  Build : option PipelineLifecycle;
  PostBuild : option PipelineLifecycle;
  Promote : option PipelineLifecycle;
  Lifecycles_Pipeline : option ParsedPipeline }.

Record NamedLifecycle := mkNamedLifecycle {
  Named_Name : string;
  Named_Lifecycle : option PipelineLifecycle }.

(** Modelled from the spec: [PipelineLifecycles.All], of package
    [jenkinsfile], is not in the file; the spec gives the stages and
    their fixed order (setup, setversion, prebuild, build, postbuild,
    promote). *)
Definition All (a : PipelineLifecycles) : list NamedLifecycle :=
  [ mkNamedLifecycle "setup" (Setup a);
    mkNamedLifecycle "setversion" (SetVersion a);
    mkNamedLifecycle "prebuild" (PreBuild a);
    mkNamedLifecycle "build" (Build a);
    mkNamedLifecycle "postbuild" (PostBuild a);
    mkNamedLifecycle "promote" (Promote a) ].

Record Pipelines := mkPipelines {
  PullRequest : option PipelineLifecycles;
  Release : option PipelineLifecycles;
  Feature : option PipelineLifecycles }.

Record PipelineAgent := mkAgent {
  Agent_Container : string }.

Record PipelineConfig := mkPipelineConfig {
  Agent : PipelineAgent;
  Config_Pipelines : Pipelines }.

End Config.

Arguments PipelineLifecycles : clear implicits.
Arguments Pipelines : clear implicits.
Arguments PipelineConfig : clear implicits.

(** Modelled from the spec: the constants of package [jenkinsfile] naming
    the pipeline kinds (release, pullrequest, feature). *)
Definition PipelineKindRelease : string := "release".
Definition PipelineKindPullRequest : string := "pullrequest".
Definition PipelineKindFeature : string := "feature".
Definition PipelineKinds : list string :=
  [PipelineKindRelease; PipelineKindPullRequest; PipelineKindFeature].

(** ** The receiver: [StepCreateTaskOptions] *)

Record StepCreateTaskResults := mkResults {
  Results_Pipeline : option Pipeline;
  Results_Tasks : list Task;
  Results_Resources : list PipelineResource;
  Results_PipelineRun : option PipelineRun;
  Results_Structure : option PipelineStructure;
  Results_PipelineParams : list Param }.

(** The fields the compiler reads or writes; [OutDir] and
    [ServiceAccount] come from the embedded option structs.  A Go [int] is
    a 64-bit integer; [Duration] counts nanoseconds.
    [MissingPodTemplates] is the map [Run] creates before compiling. *)
Record StepCreateTaskOptions := mkOptions {
  Dir : string;
  OutDir : string;
  PipelineKind : string;
  Context_ : string;
  CustomLabels : list string;
  NoApply : bool;
  Trigger : string;
  ServiceAccount : string;
  TargetPath : string;
  SourceName : string;
  CustomImage : string;
  DockerRegistry : string;
  Branch : string;
  Revision : string;
  ViewSteps : bool;
  NoSetVersion : bool;
  Duration : Z;
  PodTemplates : gmap string Pod;
  MissingPodTemplates : gmap string bool;
  stepCounter : Z;
  gitInfo : option GitRepository;
  buildNumber : string;
  labels : gmap string string;
  Results : StepCreateTaskResults }.

Definition set_Revision (v : string) (o : StepCreateTaskOptions) :=
  mkOptions (Dir o) (OutDir o) (PipelineKind o) (Context_ o) (CustomLabels o)
    (NoApply o) (Trigger o) (ServiceAccount o) (TargetPath o) (SourceName o)
    (CustomImage o) (DockerRegistry o) (Branch o) v (ViewSteps o)
    (NoSetVersion o) (Duration o) (PodTemplates o) (MissingPodTemplates o)
    (stepCounter o) (gitInfo o) (buildNumber o) (labels o) (Results o).

Definition set_MissingPodTemplates (v : gmap string bool)
    (o : StepCreateTaskOptions) :=
  mkOptions (Dir o) (OutDir o) (PipelineKind o) (Context_ o) (CustomLabels o)
    (NoApply o) (Trigger o) (ServiceAccount o) (TargetPath o) (SourceName o)
    (CustomImage o) (DockerRegistry o) (Branch o) (Revision o) (ViewSteps o)
    (NoSetVersion o) (Duration o) (PodTemplates o) v
    (stepCounter o) (gitInfo o) (buildNumber o) (labels o) (Results o).

Definition set_stepCounter (v : Z) (o : StepCreateTaskOptions) :=
  mkOptions (Dir o) (OutDir o) (PipelineKind o) (Context_ o) (CustomLabels o)
    (NoApply o) (Trigger o) (ServiceAccount o) (TargetPath o) (SourceName o)
    (CustomImage o) (DockerRegistry o) (Branch o) (Revision o) (ViewSteps o)
    (NoSetVersion o) (Duration o) (PodTemplates o) (MissingPodTemplates o)
    v (gitInfo o) (buildNumber o) (labels o) (Results o).

Definition set_labels (v : gmap string string) (o : StepCreateTaskOptions) :=
  mkOptions (Dir o) (OutDir o) (PipelineKind o) (Context_ o) (CustomLabels o)
    (NoApply o) (Trigger o) (ServiceAccount o) (TargetPath o) (SourceName o)
    (CustomImage o) (DockerRegistry o) (Branch o) (Revision o) (ViewSteps o)
    (NoSetVersion o) (Duration o) (PodTemplates o) (MissingPodTemplates o)
    (stepCounter o) (gitInfo o) (buildNumber o) v (Results o).

Definition set_Results (v : StepCreateTaskResults) (o : StepCreateTaskOptions) :=
  mkOptions (Dir o) (OutDir o) (PipelineKind o) (Context_ o) (CustomLabels o)
    (NoApply o) (Trigger o) (ServiceAccount o) (TargetPath o) (SourceName o)
    (CustomImage o) (DockerRegistry o) (Branch o) (Revision o) (ViewSteps o)
    (NoSetVersion o) (Duration o) (PodTemplates o) (MissingPodTemplates o)
    (stepCounter o) (gitInfo o) (buildNumber o) (labels o) v.

Definition set_PipelineParams (v : list Param) (r : StepCreateTaskResults) :=
  mkResults (Results_Pipeline r) (Results_Tasks r) (Results_Resources r)
    (Results_PipelineRun r) (Results_Structure r) v.

(** [o'] is [o] but for the step counter and the set of missing pod
    templates: what compiling steps can change of the receiver. *)
Definition sameButCounters (o o' : StepCreateTaskOptions) : Prop :=
  o' = set_stepCounter (stepCounter o')
         (set_MissingPodTemplates (MissingPodTemplates o') o).

(** A Go [int] wraps around at 64 bits. *)
Definition wrap64 (z : Z) : Z := (z + 2 ^ 63) mod 2 ^ 64 - 2 ^ 63.

(** ** Results, log and the outside world *)

(** A Go call returns normally, returns an error, or panics. *)
Inductive result (A : Type) :=
  | Ok (a : A)
  | Err (msg : string)
  | Panic (msg : string).
Arguments Ok {A} a.
Arguments Err {A} msg.
Arguments Panic {A} msg.

(** [errors.Wrapf(err, msg)] prints as the message, a colon and the cause. *)
Definition Wrapf (cause msg : string) : string := msg +:+ ": " +:+ cause.

Definition nilDereference : string :=
  "runtime error: invalid memory address or nil pointer dereference".

Inductive LogEntry :=
  | Info (msg : string)
  | Warn (msg : string)
  | Table (rows : list (list string)).

(** What [yaml.Marshal] is handed in [writeOutput]. *)
Inductive YamlDoc :=
  | DocPipeline (p : option Pipeline)
  | DocPipelineRun (r : option PipelineRun)
  | DocStructure (s : PipelineStructure)
  | DocTask (t : Task)
  | DocResource (r : PipelineResource).

(** The collaborators of the file: the other packages of the repository
    and the platform (file system, command runner, cluster clients).  A
    function that can change the world returns the new one; a function
    that only reads it does not.  The functions are taken not to modify
    the objects they are handed. *)
Class Platform := {
  ParsedPipeline : Type;
  World : Type;
  (* constants declared outside the file *)
  defaultContainerName : string;
  TektonAPIVersion : string;
  LabelPipelineFromYaml : string;
  DefaultFromYamlCRDLabels : gmap string string;
  (* pure helpers *)
  filepath_Join : string -> string -> string;
  ColorInfo : string -> string;
  PipelineResourceName : option GitRepository -> string -> string -> string;
  ToValidName : string -> string;
  HttpsURL : GitRepository -> string;
  HttpCloneURL : GitRepository -> string;
  MergeMaps : gmap string string -> gmap string string;
  yaml_Marshal : YamlDoc -> result string;
  os_IsExist : string -> bool;
  (* the declarative pipeline of package [syntax] *)
  ParsedPipeline_Validate : ParsedPipeline -> option string;
  GenerateCRDs : ParsedPipeline -> string -> string -> string -> string ->
                 gmap string Pod ->
                 result (Pipeline * list Task * option PipelineStructure);
  PipelineSpec_Validate : Pipeline -> option string;
  TaskSpec_Validate : Task -> option string;
  (* file system and command runner *)
  RunWithoutRetry : string -> list string -> string -> World ->
                    result string * World;
  FileExists : string -> World -> result bool;
  ReadFile : string -> World -> result string;
  Mkdir : string -> World -> option string * World;
  WriteFile : string -> string -> World -> option string * World;
  (* cluster clients *)
  KubeClientAndDevNamespace : World -> result string;
  TektonClient : World -> result unit;
  ApiExtensionsClient : World -> result unit;
  JXClientAndDevNamespace : World -> result unit;
  CreateOrUpdateSourceResource : string -> PipelineResource -> World ->
                                 result PipelineResource * World;
  CreateOrUpdateTask : string -> Task -> World -> result Task * World;
  CreateOrUpdatePipeline : string -> Pipeline -> gmap string string -> World ->
                           result Pipeline * World;
  CreatePipelineRun : string -> Pipeline -> PipelineRun -> Z -> World ->
                      result PipelineRun * World;
  RegisterPipelineStructureCRD : World -> option string * World;
  PipelineStructures_Create : string -> PipelineStructure -> World ->
                              result PipelineStructure * World }.

(** ** The helpers of package [kube] *)

(** Modelled from the spec: [kube.GetSliceEnvVar] is not in the file; a
    variable is appended only if absent, so the function finds the first
    variable of the given name, or nil. *)
Fixpoint GetSliceEnvVar (envVars : list EnvVar) (name : string)
    : option EnvVar :=
  match envVars with
  | [] => None
  | e :: rest =>
      if String.eqb (EnvVar_Name e) name then Some e
      else GetSliceEnvVar rest name
  end.

(** Modelled from the spec: [kube.ContainsVolume] is not in the file;
    volumes are keyed by volume name. *)
Definition ContainsVolume (volumes : list Volume) (volume : Volume) : bool :=
  existsb (fun v => String.eqb (Volume_Name v) (Volume_Name volume)) volumes.

(** Modelled from the spec: [kube.ContainsVolumeMount] is not in the
    file; mounts are keyed by name as the volumes are. *)
Definition ContainsVolumeMount (mounts : list VolumeMount)
    (mount : VolumeMount) : bool :=
  existsb (fun v => String.eqb (VolumeMount_Name v) (VolumeMount_Name mount))
    mounts.

(** Modelled from the spec: [kube.CombineVolumes] is not in the file; the
    volumes of a task are deduplicated by name, the first one kept. *)
Definition CombineVolumes (volumes otherVolumes : list Volume) : list Volume :=
  fold_left
    (fun acc v => if ContainsVolume acc v then acc else acc ++ [v])
    otherVolumes volumes.

(** ** Field updates of a container *)

Definition set_Container_Name (v : string) (c : Container) :=
  mkContainer v (Container_Image c) (Container_Command c) (Container_Args c)
    (Container_WorkingDir c) (Container_Env c) (Container_VolumeMounts c)
    (Container_Stdin c) (Container_TTY c).

Definition set_Container_Image (v : string) (c : Container) :=
  mkContainer (Container_Name c) v (Container_Command c) (Container_Args c)
    (Container_WorkingDir c) (Container_Env c) (Container_VolumeMounts c)
    (Container_Stdin c) (Container_TTY c).

Definition set_Container_Command (v : list string) (c : Container) :=
  mkContainer (Container_Name c) (Container_Image c) v (Container_Args c)
    (Container_WorkingDir c) (Container_Env c) (Container_VolumeMounts c)
    (Container_Stdin c) (Container_TTY c).

Definition set_Container_Args (v : list string) (c : Container) :=
  mkContainer (Container_Name c) (Container_Image c) (Container_Command c) v
    (Container_WorkingDir c) (Container_Env c) (Container_VolumeMounts c)
    (Container_Stdin c) (Container_TTY c).

Definition set_Container_WorkingDir (v : string) (c : Container) :=
  mkContainer (Container_Name c) (Container_Image c) (Container_Command c)
    (Container_Args c) v (Container_Env c) (Container_VolumeMounts c)
    (Container_Stdin c) (Container_TTY c).

Definition set_Container_Env (v : list EnvVar) (c : Container) :=
  mkContainer (Container_Name c) (Container_Image c) (Container_Command c)
    (Container_Args c) (Container_WorkingDir c) v (Container_VolumeMounts c)
    (Container_Stdin c) (Container_TTY c).

Definition set_Container_VolumeMounts (v : list VolumeMount) (c : Container) :=
  mkContainer (Container_Name c) (Container_Image c) (Container_Command c)
    (Container_Args c) (Container_WorkingDir c) (Container_Env c) v
    (Container_Stdin c) (Container_TTY c).

Definition set_Container_Stdin (v : bool) (c : Container) :=
  mkContainer (Container_Name c) (Container_Image c) (Container_Command c)
    (Container_Args c) (Container_WorkingDir c) (Container_Env c)
    (Container_VolumeMounts c) v (Container_TTY c).

Definition set_Container_TTY (v : bool) (c : Container) :=
  mkContainer (Container_Name c) (Container_Image c) (Container_Command c)
    (Container_Args c) (Container_WorkingDir c) (Container_Env c)
    (Container_VolumeMounts c) (Container_Stdin c) v.

Definition nonEmpty (s : string) : bool := negb (String.eqb s "").

(** [filepath.IsAbs] on Unix. *)
Definition filepath_IsAbs (path : string) : bool := GoStrings.HasPrefix path "/".

(** ** The injectors *)

(** One guarded append of [modifyEnvVars]:
    [if cond && kube.GetSliceEnvVar(envVars, name) == nil { append }]. *)
Definition appendIfAbsent (cond : bool) (name value : string)
    (envVars : list EnvVar) : list EnvVar :=
  if cond then
    match GetSliceEnvVar envVars name with
    | None => envVars ++ [mkEnvVar name value]
    | Some _ => envVars
    end
  else envVars.

Definition modifyEnvVars (o : StepCreateTaskOptions) (container : Container)
    : Container :=
  let envVars :=
    List.filter (fun e => negb (String.eqb (EnvVar_Name e) "JENKINS_URL"))
      (Container_Env container) in
  let envVars := appendIfAbsent true "DOCKER_REGISTRY" (DockerRegistry o) envVars in
  let envVars :=
    appendIfAbsent (nonEmpty (PipelineKind o)) "PIPELINE_KIND" (PipelineKind o)
      envVars in
  let envVars :=
    appendIfAbsent (nonEmpty (Context_ o)) "PIPELINE_CONTEXT" (Context_ o)
      envVars in
  let branch := Branch o in
  let envVars :=
    match gitInfo o with
    | Some gitInfo =>
        let u := Git_CloneURL gitInfo in
        let envVars := appendIfAbsent (nonEmpty u) "SOURCE_URL" u envVars in
        let repo := Git_Name gitInfo in
        let owner := Git_Organisation gitInfo in
        let envVars := appendIfAbsent (nonEmpty owner) "REPO_OWNER" owner envVars in
        let envVars := appendIfAbsent (nonEmpty repo) "REPO_NAME" repo envVars in
        appendIfAbsent (nonEmpty owner && nonEmpty repo && nonEmpty branch)
          "JOB_NAME" (owner +:+ "/" +:+ repo +:+ "/" +:+ branch) envVars
    | None => envVars
    end in
  let envVars := appendIfAbsent (nonEmpty branch) "BRANCH_NAME" branch envVars in
  let envVars := appendIfAbsent true "JX_BATCH_MODE" "true" envVars in
  let envVars :=
    fold_left
      (fun envVars param =>
         appendIfAbsent true (GoStrings.ToUpper (Param_Name param))
           ("${inputs.params." +:+ Param_Name param +:+ "}") envVars)
      (Results_PipelineParams (Results o)) envVars in
  set_Container_Env envVars container.




Definition podInfoVolume : Volume :=
  mkVolume "podinfo"
    (DownwardAPI [mkDownwardAPIVolumeFile "labels" "metadata.labels"]).

Definition podInfoMount : VolumeMount :=
  mkVolumeMount "podinfo" "/etc/podinfo" true.

(** [modifyVolumes] returns the volumes and updates the container it is
    given a pointer to: both are returned here. *)
Definition modifyVolumes (container : Container) (volumes : list Volume)
    : Container * list Volume :=
  let answer :=
    if ContainsVolume volumes podInfoVolume then volumes
    else volumes ++ [podInfoVolume] in
  let container :=
    if ContainsVolumeMount (Container_VolumeMounts container) podInfoMount
    then container
    else set_Container_VolumeMounts
           (Container_VolumeMounts container ++ [podInfoMount]) container in
  (container, answer).


(** ** Command text *)

Definition replaceCommandText (step : PipelineStep) : string :=
  let answer := GoStrings.Replace (Step_Command step) "\$" "$" (-1) in
  let answer :=
    GoStrings.Replace answer "export VERSION=`cat VERSION` && " "" 1 in
  fold_left
    (fun answer text => GoStrings.Replace answer text "${VERSION}" (-1))
    ["$(cat VERSION)"; "$(cat ../VERSION)"; "$(cat ../../VERSION)"]
    answer.

Definition commandStep (command : string) : PipelineStep :=
  mkStep "" command "" "" "" [].

(** ** The monad of the methods of [o]

    A method reads and writes the receiver, writes to the log and acts on
    the world; it returns, fails with an error or panics.  The state
    reached is kept in every case: Go does not undo the writes of a call
    that fails. *)
Section Compiler.

Context `{Platform}.

Record State := mkState {
  opts : StepCreateTaskOptions;
  logs : list LogEntry;
  world : World }.

Definition M (A : Type) : Type := State -> result A * State.

Definition ret {A} (a : A) : M A := fun s => (Ok a, s).

Definition bind {A B} (m : M A) (k : A -> M B) : M B :=
  fun s =>
    match m s with
    | (Ok a, s') => k a s'
    | (Err e, s') => (Err e, s')
    | (Panic e, s') => (Panic e, s')
    end.

Definition fail {A} (msg : string) : M A := fun s => (Err msg, s).
Definition panic {A} (msg : string) : M A := fun s => (Panic msg, s).

(** [errors.Wrapf] around the error of a call. *)
Definition wrapping {A} (msg : string) (m : M A) : M A :=
  fun s =>
    match m s with
    | (Err e, s') => (Err (Wrapf e msg), s')
    | r => r
    end.

Definition getOpts : M StepCreateTaskOptions := fun s => (Ok (opts s), s).

Definition modifyOpts (f : StepCreateTaskOptions -> StepCreateTaskOptions)
    : M unit :=
  fun s => (Ok tt, mkState (f (opts s)) (logs s) (world s)).

Definition log (e : LogEntry) : M unit :=
  fun s => (Ok tt, mkState (opts s) (logs s ++ [e]) (world s)).

(** A call that only reads the world. *)
Definition readWorld {A} (f : World -> result A) : M A :=
  fun s => (f (world s), s).

(** A call that can change the world. *)
Definition onWorld {A} (f : World -> result A * World) : M A :=
  fun s => let '(r, w) := f (world s) in (r, mkState (opts s) (logs s) w).

(** A call that can change the world and returns only an error. *)
Definition onWorldErr (f : World -> option string * World) : M unit :=
  fun s =>
    let '(r, w) := f (world s) in
    (match r with None => Ok tt | Some e => Err e end,
     mkState (opts s) (logs s) w).

Definition ofError (e : option string) : M unit :=
  match e with None => ret tt | Some msg => fail msg end.

End Compiler.

Declare Scope go_scope.
Delimit Scope go_scope with go.
Notation "x <- c1 ;; c2" := (bind c1 (fun x => c2))
  (at level 100, c1 at next level, right associativity) : go_scope.
Notation "c1 ;; c2" := (bind c1 (fun _ => c2))
  (at level 100, right associativity) : go_scope.
Local Open Scope go_scope.

Section Methods.

Context `{Platform}.

Definition getWorkspaceDir (o : StepCreateTaskOptions) : string :=
  filepath_Join "/workspace" (SourceName o).

(** The body of [if step.Command != ""] in [createSteps]: one compiled
    container, the volumes of its pod template, and the container name
    and directory as the children will see them. *)
Definition createLeaf (step : PipelineStep)
    (containerName dir prefixPath : string)
    : M (list Container * list Volume * string * string) :=
  containerName <-
    (if String.eqb containerName "" then
       log (Warn ("No 'agent.container' specified in the pipeline configuration so defaulting to use: "
                  +:+ defaultContainerName)) ;;
       ret defaultContainerName
     else ret containerName) ;;
  o <- getOpts ;;
  podTemplate <-
    match PodTemplates o !! containerName with
    | Some p => ret (Some p)
    | None =>
        log (Warn ("Could not find a pod template for containerName "
                   +:+ containerName)) ;;
        modifyOpts (fun o =>
          set_MissingPodTemplates
            (<[containerName := true]> (MissingPodTemplates o)) o) ;;
        ret (PodTemplates o !! defaultContainerName)
    end ;;
  match podTemplate with
  | None => panic nilDereference
  | Some podTemplate =>
      match Pod_Containers podTemplate with
      | [] => fail ("No Containers for pod template " +:+ containerName)
      | c :: _ =>
          let volumes := Pod_Volumes podTemplate in
          modifyOpts (fun o => set_stepCounter (wrap64 (stepCounter o + 1)) o) ;;
          o <- getOpts ;;
          let prefix :=
            if nonEmpty prefixPath then prefixPath +:+ "-" else prefixPath in
          let stepName :=
            if String.eqb (Step_Name step) "" then
              "step" +:+ GoStrings.Itoa (wrap64 (1 + stepCounter o))
            else Step_Name step in
          let c := set_Container_Name (prefix +:+ stepName) c in
          let '(c, volumes) := modifyVolumes c volumes in
          let c := modifyEnvVars o c in
          let c := set_Container_Command ["/bin/sh"] c in
          let c :=
            if nonEmpty (CustomImage o)
            then set_Container_Image (CustomImage o) c else c in
          let commandText := replaceCommandText step in
          let c := set_Container_Args ["-c"; commandText] c in
          let workspaceDir := getWorkspaceDir o in
          let dir :=
            if GoStrings.HasPrefix dir "./"
            then workspaceDir +:+ GoStrings.TrimPrefix dir "."
            else dir in
          let dir :=
            if negb (filepath_IsAbs dir)
            then filepath_Join workspaceDir dir else dir in
          let c := set_Container_WorkingDir dir c in
          let c := set_Container_Stdin false c in
          let c := set_Container_TTY false c in
          ret ([c], volumes, containerName, dir)
      end
  end.

(** [createSteps]: the step itself when it has a command, then its
    children in order, with the container name and directory the step
    leaves behind.  [languageName], [pipelineConfig] and [templateKind]
    are only passed along by the source and are left out. *)
Fixpoint createSteps (step : PipelineStep)
    (containerName dir prefixPath : string) {struct step}
    : M (list Container * list Volume) :=
  match step with
  | mkStep _ _ step_Dir step_Container _ children =>
      let '(containerName, dir) :=
        if nonEmpty step_Container then (step_Container, dir)
        else if nonEmpty step_Dir then (containerName, step_Dir)
        else (containerName, dir) in
      o <- getOpts ;;
      dir <-
        match gitInfo o with
        | Some gitInfo =>
            let dir :=
              GoStrings.Replace dir "REPLACE_ME_APP_NAME" (Git_Name gitInfo) (-1) in
            ret (GoStrings.Replace dir "REPLACE_ME_ORG"
                   (Git_Organisation gitInfo) (-1))
        | None => log (Warn "No GitInfo available!") ;; ret dir
        end ;;
      leaf <-
        (if nonEmpty (Step_Command step)
         then createLeaf step containerName dir prefixPath
         else ret ([], [], containerName, dir)) ;;
      let '(steps, volumes, containerName, dir) := leaf in
      (fix loop (rest : list PipelineStep) (steps : list Container)
           (volumes : list Volume) : M (list Container * list Volume) :=
         match rest with
         | [] => ret (steps, volumes)
         | s :: rest' =>
             let childPrefixPath := prefixPath in
             child <- createSteps s containerName dir childPrefixPath ;;
             let '(childSteps, v) := child in
             loop rest' (steps ++ childSteps) (CombineVolumes volumes v)
         end) children steps volumes
  end.

(** [combineLabels] and [setBuildValues] *)
Fixpoint combineLabels_loop (customLabels : list string)
    (labels : gmap string string) : M (gmap string string) :=
  match customLabels with
  | [] => ret labels
  | customLabel :: rest =>
      match GoStrings.Split customLabel "=" with
      | [key; value] =>
          log (Info ("a " +:+ key +:+ " : " +:+ value +:+ " ")) ;;
          combineLabels_loop rest (<[key := value]> labels)
      | parts =>
          fail ("expected 2 parts to label but got "
                +:+ GoStrings.Itoa (Z.of_nat (length parts)))
      end
  end.

Definition combineLabels (labels : gmap string string) : M unit :=
  o <- getOpts ;;
  labels <- combineLabels_loop (CustomLabels o) labels ;;
  modifyOpts (set_labels labels).

Definition setBuildValues (fromYaml : bool) : M unit :=
  o <- getOpts ;;
  let labels : gmap string string := ∅ in
  let labels :=
    match gitInfo o with
    | Some gitInfo =>
        <["repo" := Git_Name gitInfo]>
          (<["owner" := Git_Organisation gitInfo]> labels)
    | None => labels
    end in
  let labels := <["branch" := Branch o]> labels in
  let labels :=
    if fromYaml then <[LabelPipelineFromYaml := "true"]> labels else labels in
  combineLabels labels.

Definition generateSourceRepoResource (o : StepCreateTaskOptions)
    (name : string) (fromYaml : bool) : option PipelineResource :=
  match gitInfo o with
  | Some gitInfo =>
      let gitURL := HttpsURL gitInfo in
      if nonEmpty gitURL then
        Some (mkPipelineResource TektonAPIVersion "PipelineResource" name
                (if fromYaml then DefaultFromYamlCRDLabels else ∅)
                PipelineResourceTypeGit
                [mkParam "revision" (Revision o); mkParam "url" gitURL])
      else None
  | None => None
  end.

Definition generateTempOrderingResource : PipelineResource :=
  mkPipelineResource TektonAPIVersion "PipelineResource"
    "temp-ordering-resource" DefaultFromYamlCRDLabels
    PipelineResourceTypeImage [mkParam "url" "alpine"].

(** [viewSteps]: the table is rendered to the console, here a log entry. *)
Definition viewSteps (tasks : list Task) : M unit :=
  let showTaskName := (1 <? length tasks)%nat in
  let header :=
    if showTaskName then ["TASK"; "NAME"; "COMMAND"; "IMAGE"]
    else ["NAME"; "COMMAND"; "IMAGE"] in
  let rows :=
    flat_map
      (fun task =>
         List.map
           (fun step =>
              let command := Container_Command step ++ Container_Args step in
              let commands := GoStrings.Join command " " in
              if showTaskName
              then [Task_Name task; Container_Name step; commands;
                    Container_Image step]
              else [Container_Name step; commands; Container_Image step])
           (Task_Steps task))
      tasks in
  log (Table (header :: rows)).

(** [writeOutput] *)
Definition writeDoc (doc : YamlDoc) (kind fileName : string) : M unit :=
  data <- wrapping ("failed to marshal " +:+ kind +:+ " YAML")
            (fun s => (yaml_Marshal doc, s)) ;;
  wrapping ("failed to save " +:+ kind +:+ " file " +:+ fileName)
    (onWorldErr (WriteFile fileName data)) ;;
  log (Info ("generated " +:+ kind +:+ " at " +:+ ColorInfo fileName)).

Fixpoint writeDocs {A} (mk : A -> YamlDoc) (kind folder prefix : string)
    (i : Z) (xs : list A) : M unit :=
  match xs with
  | [] => ret tt
  | x :: rest =>
      writeDoc (mk x) kind
        (filepath_Join folder (prefix +:+ GoStrings.Itoa i +:+ ".yml")) ;;
      writeDocs mk kind folder prefix (i + 1) rest
  end.

Definition writeOutput (folder : string) (pipeline : option Pipeline)
    (tasks : list Task) (pipelineRun : option PipelineRun)
    (resources : list PipelineResource)
    (structure : option PipelineStructure) : M unit :=
  (fun s =>
     let '(r, w) := Mkdir folder (world s) in
     let s' := mkState (opts s) (logs s) w in
     match r with
     | Some e => if os_IsExist e then (Ok tt, s') else (Err e, s')
     | None => (Ok tt, s')
     end) ;;
  writeDoc (DocPipeline pipeline) "Pipeline"
    (filepath_Join folder "pipeline.yml") ;;
  writeDoc (DocPipelineRun pipelineRun) "PipelineRun"
    (filepath_Join folder "pipeline-run.yml") ;;
  match structure with
  | Some structure =>
      writeDoc (DocStructure structure) "PipelineStructure"
        (filepath_Join folder "structure.yml")
  | None => ret tt
  end ;;
  writeDocs DocTask "Task" folder "task-" 0 tasks ;;
  writeDocs DocResource "PipelineResource" folder "resource-" 0 resources.

(** ** Applying the generated objects *)

Definition set_Task_Namespace (ns : string) (t : Task) : Task :=
  mkTask (Task_APIVersion t) (Task_Kind t) (Task_Name t) ns (Task_Labels t)
    (Task_Steps t) (Task_Volumes t) (Task_Inputs t).

(** The pipeline with its namespace set and [APIVersion] and [Kind]
    defaulted. *)
Definition defaultPipeline (ns : string) (p : Pipeline) : Pipeline :=
  mkPipeline
    (if String.eqb (Pipeline_APIVersion p) "" then TektonAPIVersion
     else Pipeline_APIVersion p)
    (if String.eqb (Pipeline_Kind p) "" then "Pipeline" else Pipeline_Kind p)
    (Pipeline_Name p) ns (Pipeline_UID p) (Pipeline_Labels p)
    (Pipeline_Resources p) (Pipeline_Tasks p).

Definition pipelineOwner (pipeline : Pipeline) : OwnerReference :=
  mkOwnerReference TektonAPIVersion "Pipeline" (Pipeline_Name pipeline)
    (Pipeline_UID pipeline).

Definition newPipelineRun (o : StepCreateTaskOptions) (pipeline : Pipeline)
    (resourceBindings : list PipelineResourceBinding) : PipelineRun :=
  mkPipelineRun TektonAPIVersion "PipelineRun" (Pipeline_Name pipeline)
    [pipelineOwner pipeline] (MergeMaps (labels o)) (ServiceAccount o)
    (Trigger o) (Pipeline_Name pipeline) (Pipeline_APIVersion pipeline)
    resourceBindings (Results_PipelineParams (Results o)).

(** The structure as [applyPipeline] stamps it once the run is created. *)
Definition stampStructure (pipeline : Pipeline) (run : PipelineRun)
    (structure : PipelineStructure) : PipelineStructure :=
  mkStructure (Run_Name run) [pipelineOwner pipeline]
    (match Structure_PipelineRef structure with
     | None => Some (Pipeline_Name pipeline)
     | Some r => Some r
     end)
    (Some (Run_Name run)) (Structure_Stages structure).

(** The binding of a run to a resource. *)
Definition resourceBinding (resource : PipelineResource)
    : PipelineResourceBinding :=
  mkBinding (Resource_Name resource) (Resource_Name resource)
    (Resource_APIVersion resource).

(** The first loop of [applyPipeline]: a binding per resource, and the
    resource upserted unless [NoApply].  A nil resource pointer panics. *)
Fixpoint applyResources (ns : string) (gitInfo : option GitRepository)
    (branch : string) (resources : list (option PipelineResource))
    : M (list PipelineResource * list PipelineResourceBinding) :=
  match resources with
  | [] => ret ([], [])
  | None :: _ => panic nilDereference
  | Some resource :: rest =>
      let binding := resourceBinding resource in
      o <- getOpts ;;
      (if negb (NoApply o) then
         wrapping ("failed to create/update PipelineResource "
                   +:+ Resource_Name resource +:+ " in namespace " +:+ ns)
           (onWorld (CreateOrUpdateSourceResource ns resource)) ;;
         if String.eqb (Resource_Type resource) PipelineResourceTypeGit then
           match gitInfo with
           | None => panic nilDereference
           | Some gitInfo =>
               log (Info ("upserted PipelineResource "
                          +:+ ColorInfo (Resource_Name resource)
                          +:+ " for the git repository "
                          +:+ ColorInfo (HttpCloneURL gitInfo)
                          +:+ " and branch " +:+ ColorInfo branch))
           end
         else
           log (Info ("upserted PipelineResource "
                      +:+ ColorInfo (Resource_Name resource)))
       else ret tt) ;;
      r <- applyResources ns gitInfo branch rest ;;
      let '(applied, bindings) := r in
      ret (resource :: applied, binding :: bindings)
  end.

(** The second loop: every task gets the namespace and is upserted
    unless [NoApply]. *)
Fixpoint applyTasks (ns : string) (tasks : list Task) : M (list Task) :=
  match tasks with
  | [] => ret []
  | task :: rest =>
      let task := set_Task_Namespace ns task in
      o <- getOpts ;;
      (if negb (NoApply o) then
         wrapping ("failed to create/update the task " +:+ Task_Name task
                   +:+ " in namespace " +:+ ns)
           (onWorld (CreateOrUpdateTask ns task)) ;;
         log (Info ("upserted Task " +:+ ColorInfo (Task_Name task)))
       else ret tt) ;;
      rest <- applyTasks ns rest ;;
      ret (task :: rest)
  end.

Definition set_Results_applied (pipeline : Pipeline) (tasks : list Task)
    (resources : list PipelineResource) (run : PipelineRun)
    (structure : option PipelineStructure) (r : StepCreateTaskResults) :=
  mkResults (Some pipeline) tasks resources (Some run) structure
    (Results_PipelineParams r).

Definition applyPipeline (pipeline : Pipeline) (tasks : list Task)
    (resources : list (option PipelineResource))
    (structure : option PipelineStructure)
    (gitInfo : option GitRepository) (branch : string) : M unit :=
  ns <- readWorld KubeClientAndDevNamespace ;;
  readWorld TektonClient ;;
  r <- applyResources ns gitInfo branch resources ;;
  let '(resources, resourceBindings) := r in
  tasks <- applyTasks ns tasks ;;
  let pipeline := defaultPipeline ns pipeline in
  o <- getOpts ;;
  pipeline <-
    (if negb (NoApply o) then
       pipeline <-
         wrapping ("failed to create/update the Pipeline in namespace " +:+ ns)
           (onWorld (CreateOrUpdatePipeline ns pipeline (labels o))) ;;
       log (Info ("upserted Pipeline " +:+ ColorInfo (Pipeline_Name pipeline))) ;;
       ret pipeline
     else ret pipeline) ;;
  let run := newPipelineRun o pipeline resourceBindings in
  structure <-
    (if negb (NoApply o) then
       wrapping ("failed to create the PipelineRun in namespace " +:+ ns)
         (onWorld (CreatePipelineRun ns pipeline run (Duration o))) ;;
       log (Info ("created PipelineRun " +:+ ColorInfo (Run_Name run))) ;;
       match structure with
       | Some structure =>
           readWorld ApiExtensionsClient ;;
           onWorldErr RegisterPipelineStructureCRD ;;
           readWorld JXClientAndDevNamespace ;;
           let structure := stampStructure pipeline run structure in
           wrapping ("failed to create the PipelineStructure in namespace "
                     +:+ ns)
             (onWorld (PipelineStructures_Create ns structure)) ;;
           log (Info ("created PipelineStructure "
                      +:+ ColorInfo (Structure_Name structure))) ;;
           ret (Some structure)
       | None => ret None
       end
     else ret structure) ;;
  modifyOpts (fun o =>
    set_Results (set_Results_applied pipeline tasks resources run structure
                   (Results o)) o).

Definition applyTask (task : Task) (gitInfo : option GitRepository)
    (branch : string) : M unit :=
  match gitInfo with
  | None => panic nilDereference
  | Some git =>
      o <- getOpts ;;
      let organisation := Git_Organisation git in
      let name := Git_Name git in
      let resourceName :=
        ToValidName (organisation +:+ "-" +:+ name +:+ "-" +:+ branch) in
      let resource := generateSourceRepoResource o resourceName false in
      let pipelineResources :=
        match resource with Some r => [Some r] | None => [] end in
      let resources :=
        match resource with
        | Some r => [mkDeclaredResource (Resource_Name r) (Resource_Type r)]
        | None => []
        end in
      let taskInputResources :=
        match resource with
        | Some r => [mkTaskInputResource (SourceName o) (Resource_Name r)]
        | None => []
        end in
      let tasks :=
        [mkPipelineTask "build" (Some taskInputResources)
           (mkTaskRef (Task_Name task) NamespacedTaskKind (Task_APIVersion task))
           (Results_PipelineParams (Results o))] in
      let pipeline :=
        mkPipeline "" "" (PipelineResourceName gitInfo branch (Context_ o))
          "" "" ∅ resources tasks in
      applyPipeline pipeline [task] pipelineResources None gitInfo branch
  end.

(** ** Generating the pipeline *)

Definition taskParamOf (param : Param) : TaskParam :=
  let name := Param_Name param in
  let description :=
    if String.eqb name "version" then
      "the version number for this release which is used as a tag on docker images"
    else if String.eqb name "preview_version" then
      "the version number for this preview which is used as a tag on docker images"
    else "" in
  mkTaskParam name description "".

(** The steps of one lifecycle, [for _, s := range l.Steps], appended to
    the steps and volumes compiled so far. *)
Fixpoint createLifecycleSteps (stage : string) (ss : list PipelineStep)
    (container dir : string) (steps : list Container)
    (volumes : list Volume) : M (list Container * list Volume) :=
  match ss with
  | [] => ret (steps, volumes)
  | s :: rest =>
      r <- createSteps s container dir stage ;;
      let '(ss', v) := r in
      createLifecycleSteps stage rest container dir (steps ++ ss')
        (CombineVolumes volumes v)
  end.

(** The loop [for _, n := range lifecycles.All()] of [generatePipeline]. *)
Fixpoint createAllSteps (all : list NamedLifecycle) (container dir : string)
    (steps : list Container) (volumes : list Volume)
    : M (list Container * list Volume) :=
  match all with
  | [] => ret (steps, volumes)
  | n :: rest =>
      o <- getOpts ;;
      match Named_Lifecycle n with
      | None => createAllSteps rest container dir steps volumes
      | Some l =>
          if negb (NoSetVersion o) && String.eqb (Named_Name n) "setversion"
          then createAllSteps rest container dir steps volumes
          else
            r <- createLifecycleSteps (Named_Name n) (Lifecycle_Steps l)
                   container dir steps volumes ;;
            let '(steps, volumes) := r in
            createAllSteps rest container dir steps volumes
      end
  end.




Definition set_SetVersion (v : option PipelineLifecycle)
    (l : PipelineLifecycles ParsedPipeline) : PipelineLifecycles ParsedPipeline :=
  mkLifecycles (Setup l) v (PreBuild l) (Build l) (PostBuild l)
    (Promote l) (Lifecycles_Pipeline l).

Definition set_PipelineTask_Params (v : list Param) (t : PipelineTask) :=
  mkPipelineTask (PipelineTask_Name t) (PipelineTask_Resources t)
    (PipelineTask_TaskRef t) v.

Definition set_Pipeline_Tasks (v : list PipelineTask) (p : Pipeline) :=
  mkPipeline (Pipeline_APIVersion p) (Pipeline_Kind p) (Pipeline_Name p)
    (Pipeline_Namespace p) (Pipeline_UID p) (Pipeline_Labels p)
    (Pipeline_Resources p) v.

(** The steps of a generated task run through both injectors; the volumes
    kept are those of the last step, none when there is no step. *)
Definition injectTask (o : StepCreateTaskOptions) (taskInputs : Inputs)
    (task : Task) : Task :=
  let steps :=
    List.map
      (fun step => modifyEnvVars o (fst (modifyVolumes step (Task_Volumes task))))
      (Task_Steps task) in
  let volumes :=
    match last (Task_Steps task) with
    | Some step => snd (modifyVolumes step (Task_Volumes task))
    | None => []
    end in
  let inputs :=
    match Task_Inputs task with
    | None => taskInputs
    | Some i => mkInputs (Inputs_Resources i) (Inputs_Params taskInputs)
    end in
  mkTask (Task_APIVersion task) (Task_Kind task) (Task_Name task)
    (Task_Namespace task) (Task_Labels task) steps volumes (Some inputs).

Fixpoint validateAndInjectTasks (o : StepCreateTaskOptions)
    (taskInputs : Inputs) (tasks : list Task) : M (list Task) :=
  match tasks with
  | [] => ret []
  | task :: rest =>
      ofError (option_map
                 (fun e => Wrapf e ("Validation failed for generated Task: "
                                    +:+ Task_Name task))
                 (TaskSpec_Validate task)) ;;
      let task := injectTask o taskInputs task in
      rest <- validateAndInjectTasks o taskInputs rest ;;
      ret (task :: rest)
  end.

(** The declarative path of [generatePipeline]. *)
Definition generateFromYaml (p : ParsedPipeline) (taskInputs : Inputs)
    : M unit :=
  ofError (option_map (fun e => Wrapf e "Validation failed for Pipeline")
             (ParsedPipeline_Validate p)) ;;
  setBuildValues true ;;
  o <- getOpts ;;
  let name := PipelineResourceName (gitInfo o) (Branch o) (Context_ o) in
  name <-
    (if (String.length name <? 5)%nat
     then panic "runtime error: slice bounds out of range"
     else ret (String.substring (String.length name - 5) 5 name)) ;;
  crds <- wrapping "Generation failed for Pipeline"
            (fun s => (GenerateCRDs p name (buildNumber o) "will-be-replaced"
                         "abcd" (PodTemplates o), s)) ;;
  let '(pipeline, tasks, structure) := crds in
  let pipeline :=
    set_Pipeline_Tasks
      (List.map
         (fun t =>
            match PipelineTask_Params t with
            | [] => set_PipelineTask_Params (Results_PipelineParams (Results o)) t
            | _ => t
            end)
         (Pipeline_Tasks pipeline))
      pipeline in
  ofError (option_map
             (fun e => Wrapf e "Validation failed for generated Pipeline")
             (PipelineSpec_Validate pipeline)) ;;
  tasks <- validateAndInjectTasks o taskInputs tasks ;;
  if ViewSteps o then viewSteps tasks
  else
    let resources :=
      [generateSourceRepoResource o name true;
       Some generateTempOrderingResource] in
    wrapping "failed to apply generated Pipeline"
      (applyPipeline pipeline tasks resources structure (gitInfo o) (Branch o)) ;;
    let folderName := OutDir o in
    if nonEmpty folderName then
      o <- getOpts ;;
      wrapping ("failed to write generated output to " +:+ folderName)
        (writeOutput folderName (Results_Pipeline (Results o))
           (Results_Tasks (Results o)) (Results_PipelineRun (Results o))
           (Results_Resources (Results o)) (Results_Structure (Results o)))
    else ret tt.

(** The task the build-pack path makes of the compiled steps. *)
Definition buildPackTask (o : StepCreateTaskOptions) (taskInputs : Inputs)
    (steps : list Container) (volumes : list Volume) : Task :=
  let name := PipelineResourceName (gitInfo o) (Branch o) (Context_ o) in
  let sourceResourceName := SourceName o in
  mkTask TektonAPIVersion "Task" name "" (labels o) steps volumes
    (Some (mkInputs
             (Inputs_Resources taskInputs ++
              [mkTaskResource sourceResourceName PipelineResourceTypeGit
                 (TargetPath o)])
             (Inputs_Params taskInputs))).

(** The build-pack path of [generatePipeline]. *)
Definition generateFromBuildPack (pipelineConfig : PipelineConfig ParsedPipeline)
    (lifecycles : PipelineLifecycles ParsedPipeline) (taskInputs : Inputs)
    : M unit :=
  o <- getOpts ;;
  let container := Agent_Container (Agent pipelineConfig) in
  let container :=
    if nonEmpty (CustomImage o) then CustomImage o else container in
  let dir := getWorkspaceDir o in
  r <- createAllSteps (All lifecycles) container dir [] [] ;;
  let '(steps, volumes) := r in
  o <- getOpts ;;
  let task := buildPackTask o taskInputs steps volumes in
  if ViewSteps o then viewSteps [task]
  else
    wrapping "failed to apply generated Pipeline"
      (applyTask task (gitInfo o) (Branch o)) ;;
    let folderName := OutDir o in
    if nonEmpty folderName then
      o <- getOpts ;;
      wrapping ("failed to write generated output to " +:+ folderName)
        (writeOutput folderName (Results_Pipeline (Results o))
           (Results_Tasks (Results o)) (Results_PipelineRun (Results o))
           (Results_Resources (Results o)) None)
    else ret tt.

Definition generatePipeline (languageName : string)
    (pipelineConfig : PipelineConfig ParsedPipeline)
    (lifecycles : option (PipelineLifecycles ParsedPipeline))
    (templateKind : string) : M unit :=
  match lifecycles with
  | None => ret tt
  | Some lifecycles =>
      setBuildValues false ;;
      o <- getOpts ;;
      let taskParams := List.map taskParamOf (Results_PipelineParams (Results o)) in
      let taskInputs := mkInputs [] taskParams in
      match Lifecycles_Pipeline lifecycles with
      | Some p => generateFromYaml p taskInputs
      | None => generateFromBuildPack pipelineConfig lifecycles taskInputs
      end
  end.

Definition set_Step_Dir (v : string) (step : PipelineStep) : PipelineStep :=
  mkStep (Step_Name step) (Step_Command step) v (Step_Container step)
    (Step_When step) (Step_Steps step).

Definition credentialsStep : PipelineStep :=
  mkStep "jx-git-credentials" "jx step git credentials" "" "" "" [].

Definition set_Setup (v : option PipelineLifecycle)
    (l : PipelineLifecycles ParsedPipeline) : PipelineLifecycles ParsedPipeline :=
  mkLifecycles v (SetVersion l) (PreBuild l) (Build l) (PostBuild l)
    (Promote l) (Lifecycles_Pipeline l).

Definition set_Release (v : option (PipelineLifecycles ParsedPipeline))
    (c : PipelineConfig ParsedPipeline) : PipelineConfig ParsedPipeline :=
  mkPipelineConfig (Agent c)
    (mkPipelines (PullRequest (Config_Pipelines c)) v
       (Feature (Config_Pipelines c))).

(** What [generateTask] does to the release lifecycles it is handed a
    pointer to: a setup lifecycle is made if there is none and the
    credentials step is put before its steps. *)
Definition addCredentialsStep (lifecycles : PipelineLifecycles ParsedPipeline)
    : PipelineLifecycles ParsedPipeline :=
  let setup :=
    match Setup lifecycles with
    | None => mkLifecycle []
    | Some l => l
    end in
  set_Setup (Some (mkLifecycle ([credentialsStep] ++ Lifecycle_Steps setup)))
    lifecycles.

(** [generateTask].  The release lifecycles are updated in place, through
    the pointer held by [pipelineConfig]: the configuration as the call
    leaves it is returned with the outcome. *)
Definition generateTask (name : string)
    (pipelineConfig : PipelineConfig ParsedPipeline)
    : M (PipelineConfig ParsedPipeline) :=
  o <- getOpts ;;
  let kind := PipelineKind o in
  let pipelines := Config_Pipelines pipelineConfig in
  if String.eqb kind PipelineKindRelease then
    match Release pipelines with
    | None => panic nilDereference
    | Some lifecycles =>
        let lifecycles := addCredentialsStep lifecycles in
        let pipelineConfig := set_Release (Some lifecycles) pipelineConfig in
        generatePipeline name pipelineConfig (Some lifecycles) kind ;;
        ret pipelineConfig
    end
  else if String.eqb kind PipelineKindPullRequest then
    generatePipeline name pipelineConfig (PullRequest pipelines) kind ;;
    ret pipelineConfig
  else if String.eqb kind PipelineKindFeature then
    generatePipeline name pipelineConfig (Feature pipelines) kind ;;
    ret pipelineConfig
  else
    fail ("Unknown pipeline kind " +:+ kind +:+ ". Supported values are "
          +:+ GoStrings.Join PipelineKinds ", ").

(** ** Version resolution *)

Definition runStepCommand (step : PipelineStep) : M unit :=
  let c := Step_Command step in
  if String.eqb c "" then ret tt
  else
    log (Info ("running command: " +:+ ColorInfo c)) ;;
    let commandText := GoStrings.Replace (Step_Command step) "\$" "$" (-1) in
    o <- getOpts ;;
    result <- onWorld (RunWithoutRetry "/bin/sh" ["-c"; commandText] (Dir o)) ;;
    log (Info result).

(** One round of the loop of [invokeSteps]: the children first, then the
    step's own command unless its [When] is [!prow] or it has none. *)
Fixpoint invokeStep (s : PipelineStep) {struct s} : M unit :=
  match s with
  | mkStep _ command _ _ when children =>
      (fix invokeChildren (steps : list PipelineStep) : M unit :=
         match steps with
         | [] => ret tt
         | s' :: rest => invokeStep s' ;; invokeChildren rest
         end) children ;;
      let when := GoStrings.TrimSpace when in
      if String.eqb when "!prow" || String.eqb command "" then ret tt
      else runStepCommand s
  end.

Fixpoint invokeSteps (steps : list PipelineStep) : M unit :=
  match steps with
  | [] => ret tt
  | s :: rest => invokeStep s ;; invokeSteps rest
  end.

Definition set_version (version : string) (o : StepCreateTaskOptions) :=
  set_Revision ("v" +:+ version)
    (set_Results
       (set_PipelineParams
          (Results_PipelineParams (Results o) ++ [mkParam "version" version])
          (Results o)) o).

Definition setVersionOnReleasePipelines
    (pipelineConfig : PipelineConfig ParsedPipeline) : M unit :=
  o <- getOpts ;;
  if NoSetVersion o || ViewSteps o then ret tt
  else if String.eqb (PipelineKind o) PipelineKindRelease then
    match Release (Config_Pipelines pipelineConfig) with
    | None => fail "no Release pipeline available"
    | Some release =>
        match SetVersion release with
        | None => fail "no SetVersion pipeline on the Release pipeline"
        | Some sv =>
            invokeSteps (Lifecycle_Steps sv) ;;
            o <- getOpts ;;
            let versionFile := filepath_Join (Dir o) "VERSION" in
            exist <- readWorld (FileExists versionFile) ;;
            version <-
              (if exist : bool then
                 data <- wrapping ("failed to read file " +:+ versionFile)
                           (readWorld (ReadFile versionFile)) ;;
                 let text := GoStrings.TrimSpace data in
                 if String.eqb text "" then
                   log (Warn ("versions file " +:+ versionFile +:+ " is empty!")) ;;
                   ret ""
                 else ret text
               else ret "") ;;
            if nonEmpty version then modifyOpts (set_version version)
            else ret tt
        end
    end
  else
    let branch := if String.eqb (Branch o) "" then Revision o else Branch o in
    let previewVersion :=
      "0.0.0-SNAPSHOT-" +:+ branch +:+ "-" +:+ buildNumber o in
    modifyOpts (fun o =>
      set_Results
        (set_PipelineParams
           (Results_PipelineParams (Results o)
            ++ [mkParam "preview_version" previewVersion])
           (Results o)) o).

(** The end of [Run], from the resolved pipeline configuration on: the
    version is set, then the task is generated; what comes before loads
    the configuration and the pod templates and sets the fields of [o]. *)
Definition Run (name pipelineFile : string)
    (pipelineConfig : PipelineConfig ParsedPipeline) : M unit :=
  wrapping "failed to set the version on release pipelines"
    (setVersionOnReleasePipelines pipelineConfig) ;;
  wrapping ("failed to generate Task for build pack pipeline YAML: "
            +:+ pipelineFile)
    (generateTask name pipelineConfig) ;;
  ret tt.

End Methods.

(** ** Notions used to state the properties *)
Section Notions.

Context `{Platform}.

(** The directory a step hands on, before the command of the step, if it
    has one, resolves it: the step's own only if the step names no
    container, with the placeholders filled in when the repository is
    known. *)
Definition stepDir (o : StepCreateTaskOptions) (step : PipelineStep)
    (inherited : string) : string :=
  let dir :=
    if nonEmpty (Step_Container step) then inherited
    else if nonEmpty (Step_Dir step) then Step_Dir step
    else inherited in
  match gitInfo o with
  | Some gitInfo =>
      GoStrings.Replace
        (GoStrings.Replace dir "REPLACE_ME_APP_NAME" (Git_Name gitInfo) (-1))
        "REPLACE_ME_ORG" (Git_Organisation gitInfo) (-1)
  | None => dir
  end.

(** The container name a step hands on, before the command of the step,
    if it has one, defaults it. *)
Definition stepContainer (step : PipelineStep) (inherited : string) : string :=
  if nonEmpty (Step_Container step) then Step_Container step else inherited.

(** The state once [createSteps] has looked for the repository. *)
Definition gitInfoChecked (s : State) : State :=
  match gitInfo (opts s) with
  | Some _ => s
  | None => mkState (opts s) (logs s ++ [Warn "No GitInfo available!"]) (world s)
  end.

(** The results of [applyPipeline], given the pipeline the run is made
    for and the structure kept: the tasks in the namespace, the resources
    as given, the run bound to them. *)
Definition appliedResults (o : StepCreateTaskOptions) (ns : string)
    (pipeline : Pipeline) (tasks : list Task)
    (resources : list PipelineResource)
    (structure : option PipelineStructure) : StepCreateTaskResults :=
  mkResults (Some pipeline) (List.map (set_Task_Namespace ns) tasks) resources
    (Some (newPipelineRun o pipeline (List.map resourceBinding resources)))
    structure (Results_PipelineParams (Results o)).

(** A computation that leaves the receiver as it is, however it ends. *)
Definition keepsOpts {A} (m : M A) : Prop :=
  forall s r s', m s = (r, s') -> opts s' = opts s.

(** The container name a step is compiled with: its own if it has one,
    else the inherited one, else the default. *)
Definition effectiveContainerName (step : PipelineStep) (inherited : string)
    : string :=
  let name :=
    if nonEmpty (Step_Container step) then Step_Container step
    else inherited in
  if String.eqb name "" then defaultContainerName else name.

(** What compiling steps may change of the state: the log, the step
    counter and the set of missing pod templates. *)
Definition compileFrame (s s' : State) : Prop :=
  world s' = world s /\ sameButCounters (opts s) (opts s').

End Notions.

(** ** Concrete inputs

    The options as the command line leaves them by default, and the
    updates of single fields used to build the inputs of the examples. *)
Definition emptyResults : StepCreateTaskResults :=
  mkResults None [] [] None None [].

Definition defaultOptions : StepCreateTaskOptions :=
  {| Dir := "/src"; OutDir := ""; PipelineKind := "release"; Context_ := "";
     CustomLabels := []; NoApply := false; Trigger := "manual";
     ServiceAccount := "tekton-bot"; TargetPath := ""; SourceName := "source";
     CustomImage := ""; DockerRegistry := "docker.io"; Branch := "master";
     Revision := ""; ViewSteps := false; NoSetVersion := false;
     Duration := 30000000000; PodTemplates := ∅; MissingPodTemplates := ∅;
     stepCounter := 0; gitInfo := None; buildNumber := "1"; labels := ∅;
     Results := emptyResults |}.

Definition set_PipelineKind (v : string) (o : StepCreateTaskOptions) :=
  mkOptions (Dir o) (OutDir o) v (Context_ o) (CustomLabels o)
    (NoApply o) (Trigger o) (ServiceAccount o) (TargetPath o) (SourceName o)
    (CustomImage o) (DockerRegistry o) (Branch o) (Revision o) (ViewSteps o)
    (NoSetVersion o) (Duration o) (PodTemplates o) (MissingPodTemplates o)
    (stepCounter o) (gitInfo o) (buildNumber o) (labels o) (Results o).

Definition set_NoApply (v : bool) (o : StepCreateTaskOptions) :=
  mkOptions (Dir o) (OutDir o) (PipelineKind o) (Context_ o) (CustomLabels o)
    v (Trigger o) (ServiceAccount o) (TargetPath o) (SourceName o)
    (CustomImage o) (DockerRegistry o) (Branch o) (Revision o) (ViewSteps o)
    (NoSetVersion o) (Duration o) (PodTemplates o) (MissingPodTemplates o)
    (stepCounter o) (gitInfo o) (buildNumber o) (labels o) (Results o).


Definition set_PodTemplates (v : gmap string Pod) (o : StepCreateTaskOptions) :=
  mkOptions (Dir o) (OutDir o) (PipelineKind o) (Context_ o) (CustomLabels o)
    (NoApply o) (Trigger o) (ServiceAccount o) (TargetPath o) (SourceName o)
    (CustomImage o) (DockerRegistry o) (Branch o) (Revision o) (ViewSteps o)
    (NoSetVersion o) (Duration o) v (MissingPodTemplates o)
    (stepCounter o) (gitInfo o) (buildNumber o) (labels o) (Results o).

Definition set_gitInfo (v : option GitRepository) (o : StepCreateTaskOptions) :=
  mkOptions (Dir o) (OutDir o) (PipelineKind o) (Context_ o) (CustomLabels o)
    (NoApply o) (Trigger o) (ServiceAccount o) (TargetPath o) (SourceName o)
    (CustomImage o) (DockerRegistry o) (Branch o) (Revision o) (ViewSteps o)
    (NoSetVersion o) (Duration o) (PodTemplates o) (MissingPodTemplates o)
    (stepCounter o) v (buildNumber o) (labels o) (Results o).


Definition bareContainer (name image : string) : Container :=
  mkContainer name image [] [] "" [] [] false false.

(** A container as a pod template declares it: with a variable of its
    own, one the injector also knows, and the reserved one. *)
Definition mavenContainer : Container :=
  mkContainer "maven" "maven:3.6" [] [] ""
    [mkEnvVar "MAVEN_OPTS" "-Xmx1g"; mkEnvVar "JENKINS_URL" "http://jenkins";
     mkEnvVar "DOCKER_REGISTRY" "my.registry"]
    [mkVolumeMount "workspace" "/home/jenkins" false] false false.



(** A world to run the examples in: the files by path, and a journal of
    every call that can change the world. *)
Record DemoWorld := mkDemoWorld {
  files : list (string * string);
  journal : list string }.

Fixpoint lookupFile (path : string) (fs : list (string * string))
    : option string :=
  match fs with
  | [] => None
  | (p, data) :: rest => if String.eqb p path then Some data else lookupFile path rest
  end.

Definition journaled (entry : string) (w : DemoWorld) : DemoWorld :=
  mkDemoWorld (files w) (journal w ++ [entry]).

Definition lineFeed : string := String (ascii_of_nat 10) "".

(** The command runner of the examples: [jx step next-version] writes the
    file VERSION in its directory, [false] fails, anything else does
    nothing; every command is journaled. *)
Definition demoRun (name : string) (args : list string) (dir : string)
    (w : DemoWorld) : result string * DemoWorld :=
  let text := GoStrings.Join args " " in
  let w := journaled ("run " +:+ text) w in
  if String.eqb text "-c jx step next-version" then
    (Ok "created version 1.2.3",
     mkDemoWorld ((dir +:+ "/VERSION", "1.2.3" +:+ lineFeed) :: files w)
       (journal w))
  else if String.eqb text "-c false" then (Err "exit status 1", w)
  else (Ok "", w).

Definition set_Pipeline_UID (uid : string) (p : Pipeline) : Pipeline :=
  mkPipeline (Pipeline_APIVersion p) (Pipeline_Kind p) (Pipeline_Name p)
    (Pipeline_Namespace p) uid (Pipeline_Labels p) (Pipeline_Resources p)
    (Pipeline_Tasks p).

(** The declarative pipeline of the examples is given as the objects it
    generates; the cluster accepts every object and gives the pipeline
    an identifier. *)
#[export] Instance demoPlatform : Platform := {|
  ParsedPipeline := Pipeline * list Task * option PipelineStructure;
  World := DemoWorld;
  defaultContainerName := "default";
  TektonAPIVersion := "tekton.dev/v1alpha1";
  LabelPipelineFromYaml := "jenkins.io/pipelineFromYaml";
  DefaultFromYamlCRDLabels := {[ "jenkins.io/pipelineFromYaml" := "true" ]};
  filepath_Join := fun a b => a +:+ "/" +:+ b;
  ColorInfo := fun s => s;
  PipelineResourceName := fun git branch context =>
    match git with
    | Some g => Git_Organisation g +:+ "-" +:+ Git_Name g +:+ "-" +:+ branch
    | None => branch
    end;
  ToValidName := fun s => s;
  HttpsURL := Git_URL;
  HttpCloneURL := fun g => Git_URL g +:+ ".git";
  MergeMaps := fun m => m;
  yaml_Marshal := fun _ => Ok "yaml";
  os_IsExist := fun e => String.eqb e "file exists";
  ParsedPipeline_Validate := fun _ => None;
  GenerateCRDs := fun p _ _ _ _ _ => Ok p;
  PipelineSpec_Validate := fun _ => None;
  TaskSpec_Validate := fun _ => None;
  RunWithoutRetry := demoRun;
  FileExists := fun path w =>
    Ok (match lookupFile path (files w) with Some _ => true | None => false end);
  ReadFile := fun path w =>
    match lookupFile path (files w) with
    | Some data => Ok data
    | None => Err "no such file or directory"
    end;
  Mkdir := fun path w => (None, journaled ("mkdir " +:+ path) w);
  WriteFile := fun path data w =>
    (None, mkDemoWorld ((path, data) :: files w)
             (journal w ++ ["write " +:+ path]));
  KubeClientAndDevNamespace := fun _ => Ok "jx";
  TektonClient := fun _ => Ok tt;
  ApiExtensionsClient := fun _ => Ok tt;
  JXClientAndDevNamespace := fun _ => Ok tt;
  CreateOrUpdateSourceResource := fun ns r w =>
    (Ok r, journaled ("upsert resource " +:+ Resource_Name r) w);
  CreateOrUpdateTask := fun ns t w =>
    (Ok t, journaled ("upsert task " +:+ Task_Name t) w);
  CreateOrUpdatePipeline := fun ns p labels w =>
    (Ok (set_Pipeline_UID "uid-1" p),
     journaled ("upsert pipeline " +:+ Pipeline_Name p) w);
  CreatePipelineRun := fun ns p r d w =>
    (Ok r, journaled ("create run " +:+ Run_Name r) w);
  RegisterPipelineStructureCRD := fun w =>
    (None, journaled "register structure CRD" w);
  PipelineStructures_Create := fun ns st w =>
    (Ok st, journaled ("create structure " +:+ Structure_Name st) w)
|}.

Definition emptyWorld : DemoWorld := mkDemoWorld [] [].

Definition demoState (o : StepCreateTaskOptions) : State :=
  mkState o [] emptyWorld.

Definition leafStep (name command : string) : PipelineStep :=
  mkStep name command "" "" "" [].

Definition mavenPod : Pod :=
  mkPod [mavenContainer] [mkVolume "workspace" (OtherSource "emptyDir")].

Definition defaultPod : Pod :=
  mkPod [bareContainer "default" "builder:1"] [].

Definition acmeRepo : GitRepository :=
  mkGitRepository "myapp" "acme" "https://github.com/acme/myapp.git"
    "https://github.com/acme/myapp".

(** A build pack with a version stage and a build stage. *)
Definition mavenLifecycles : PipelineLifecycles ParsedPipeline :=
  mkLifecycles None
    (Some (mkLifecycle [leafStep "next-version" "jx step next-version"]))
    None
    (Some (mkLifecycle [leafStep "" "mvn deploy"]))
    None None None.

Definition mavenConfig : PipelineConfig ParsedPipeline :=
  mkPipelineConfig (mkAgent "maven")
    (mkPipelines (Some mavenLifecycles) (Some mavenLifecycles) None).

Definition mavenOptions : StepCreateTaskOptions :=
  set_PodTemplates (<["maven" := mavenPod]> (<["default" := defaultPod]> ∅))
    (set_gitInfo (Some acmeRepo) defaultOptions).


(** A configuration with release lifecycles only. *)
Definition releaseOnlyConfig : PipelineConfig ParsedPipeline :=
  mkPipelineConfig (mkAgent "maven")
    (mkPipelines None (Some mavenLifecycles) None).

(** A configuration whose release lifecycles have no setversion stage. *)
Definition noVersionStageConfig : PipelineConfig ParsedPipeline :=
  mkPipelineConfig (mkAgent "maven")
    (mkPipelines None (Some (set_SetVersion None mavenLifecycles)) None).

(** A grouping step that names both a container and a directory. *)
Definition chartsStep : PipelineStep :=
  mkStep "" "" "/workspace/source/charts" "default" ""
    [leafStep "release" "make release"].

(** Objects to apply: a one-task pipeline, its task, a git resource and a
    structure not yet bound to a run. *)
Definition demoTask : Task :=
  mkTask "tekton.dev/v1alpha1" "Task" "acme-myapp-master" "" ∅
    [bareContainer "build" "maven:3.6"] [] None.

Definition demoPipeline : Pipeline :=
  mkPipeline "" "" "acme-myapp-master" "" "" ∅ []
    [mkPipelineTask "build" None
       (mkTaskRef "acme-myapp-master" "Task" "tekton.dev/v1alpha1") []].

Definition demoResource : PipelineResource :=
  mkPipelineResource "tekton.dev/v1alpha1" "PipelineResource"
    "acme-myapp-master" ∅ "git"
    [mkParam "revision" "master"; mkParam "url" "https://github.com/acme/myapp"].

Definition demoStructure : PipelineStructure :=
  mkStructure "" [] None None "stages".

Definition appliedWith (o : StepCreateTaskOptions) : result unit * State :=
  applyPipeline demoPipeline [demoTask] [Some demoResource]
    (Some demoStructure) (Some acmeRepo) "master" (demoState o).

(** Release lifecycles that carry a declarative pipeline, and a setup
    stage of their own. *)
Definition yamlLifecycles : PipelineLifecycles ParsedPipeline :=
  mkLifecycles (Some (mkLifecycle [leafStep "init" "make init"]))
    None None None None None
    (Some (demoPipeline, [demoTask], Some demoStructure)).

Definition yamlConfig : PipelineConfig ParsedPipeline :=
  mkPipelineConfig (mkAgent "maven") (mkPipelines None (Some yamlLifecycles) None).

(** The names of the steps of the tasks in [Results]. *)
Definition resultStepNames (r : result (PipelineConfig ParsedPipeline) * State)
    : list (list string) :=
  List.map (fun t => List.map Container_Name (Task_Steps t))
    (Results_Tasks (Results (opts (snd r)))).

(** ** Further notions: traversals of a step tree *)
Section Traversals.

Context `{Platform}.

(** Whether [invokeSteps] runs the command of a step itself. *)
Definition runsCommand (s : PipelineStep) : bool :=
  negb (String.eqb (GoStrings.TrimSpace (Step_When s)) "!prow"
        || String.eqb (Step_Command s) "").

(** The steps of a tree whose command is run, children before their
    parent. *)
Fixpoint versionCommands (s : PipelineStep) : list PipelineStep :=
  match s with
  | mkStep _ _ _ _ _ children =>
      (fix ofChildren (steps : list PipelineStep) : list PipelineStep :=
         match steps with
         | [] => []
         | s' :: rest => versionCommands s' ++ ofChildren rest
         end) children
      ++ (if runsCommand s then [s] else [])
  end.

(** The given commands run one after the other, up to the first that
    fails. *)
Fixpoint runStepCommands (steps : list PipelineStep) : M unit :=
  match steps with
  | [] => ret tt
  | s :: rest => runStepCommand s ;; runStepCommands rest
  end.

(** The steps of a tree that have a command, parent before children. *)
Fixpoint commandSteps (s : PipelineStep) : list PipelineStep :=
  match s with
  | mkStep _ _ _ _ _ children =>
      (if nonEmpty (Step_Command s) then [s] else [])
      ++ (fix ofChildren (steps : list PipelineStep) : list PipelineStep :=
            match steps with
            | [] => []
            | s' :: rest => commandSteps s' ++ ofChildren rest
            end) children
  end.

End Traversals.

(** ** The container of one command *)
Section CompiledContainer.

Context `{Platform}.

(** What [createSteps] makes of the first container [c] of a pod
    template and of the volumes of the template, for a step with a
    command: the statements after [o.stepCounter++], with [o] the
    receiver after the increment.  The result is the compiled container,
    the volumes and the working directory. *)
Definition compileLeaf (o : StepCreateTaskOptions) (step : PipelineStep)
    (prefixPath dir : string) (c : Container) (volumes : list Volume)
    : Container * list Volume * string :=
  let prefix :=
    if nonEmpty prefixPath then prefixPath +:+ "-" else prefixPath in
  let stepName :=
    if String.eqb (Step_Name step) "" then
      "step" +:+ GoStrings.Itoa (wrap64 (1 + stepCounter o))
    else Step_Name step in
  let c := set_Container_Name (prefix +:+ stepName) c in
  let '(c, volumes) := modifyVolumes c volumes in
  let c := modifyEnvVars o c in
  let c := set_Container_Command ["/bin/sh"] c in
  let c :=
    if nonEmpty (CustomImage o)
    then set_Container_Image (CustomImage o) c else c in
  let commandText := replaceCommandText step in
  let c := set_Container_Args ["-c"; commandText] c in
  let workspaceDir := getWorkspaceDir o in
  let dir :=
    if GoStrings.HasPrefix dir "./"
    then workspaceDir +:+ GoStrings.TrimPrefix dir "."
    else dir in
  let dir :=
    if negb (filepath_IsAbs dir)
    then filepath_Join workspaceDir dir else dir in
  let c := set_Container_WorkingDir dir c in
  let c := set_Container_Stdin false c in
  let c := set_Container_TTY false c in
  (c, volumes, dir).

(** The name under which [createSteps] looks up the pod template. *)
Definition templateName (containerName : string) : string :=
  if String.eqb containerName "" then defaultContainerName else containerName.

(** The pod template [createSteps] uses for a container name: the one of
    that name, else the default one. *)
Definition templateFor (o : StepCreateTaskOptions) (containerName : string)
    : option Pod :=
  match PodTemplates o !! templateName containerName with
  | Some p => Some p
  | None => PodTemplates o !! defaultContainerName
  end.

End CompiledContainer.

(** * Properties *)

(** ** Sanity checks of the string functions *)

Example Itoa_2 : GoStrings.Itoa 2 = "2".
Proof. reflexivity. Qed.

Example Replace_all :
  GoStrings.Replace "a-b-c" "-" "+" (-1) = "a+b+c".
Proof. reflexivity. Qed.

Example Replace_first :
  GoStrings.Replace "a-b-c" "-" "+" 1 = "a+b-c".
Proof. reflexivity. Qed.

Example TrimSpace_version :
  GoStrings.TrimSpace (" 1.2.3" +:+ String (ascii_of_nat 10) "") = "1.2.3".
Proof. reflexivity. Qed.

Example replaceCommandText_export :
  replaceCommandText (commandStep "export VERSION=`cat VERSION` && npm test")
  = "npm test".
Proof. reflexivity. Qed.

Example replaceCommandText_cat :
  replaceCommandText (commandStep "echo $(cat VERSION)") = "echo ${VERSION}".
Proof. reflexivity. Qed.

Example replaceCommandText_escaped :
  replaceCommandText (commandStep "echo \$HOME $(cat ../VERSION)")
  = "echo $HOME ${VERSION}".
Proof. reflexivity. Qed.


(** ** Strings *)

#[local] Arguments String.append !s1 s2 : simpl nomatch.

Section StringFacts.

Import GoStrings.

Lemma append_nil_r (s : string) : s +:+ "" = s.
Proof. induction s as [|c s IH]; simpl; congruence. Qed.

Lemma append_assoc (a b c : string) : (a +:+ b) +:+ c = a +:+ b +:+ c.
Proof. induction a as [|x a IH]; simpl; congruence. Qed.

Lemma length_append (a b : string) :
  String.length (a +:+ b) = (String.length a + String.length b)%nat.
Proof. induction a as [|x a IH]; simpl; congruence. Qed.

Lemma strip_prefix_spec (p s r : string) :
  strip_prefix p s = Some r <-> s = p +:+ r.
Proof.
  revert s; induction p as [|a p IH]; intros s; simpl.
  - split; congruence.
  - destruct s as [|b s]; [split; discriminate|].
    destruct (Ascii.eqb_spec a b) as [->|Hne].
    + rewrite IH. split; congruence.
    + split; [discriminate|]. intros Heq. injection Heq as Hab _.
      symmetry in Hab. contradiction.
Qed.

Lemma strip_prefix_app (p r : string) : strip_prefix p (p +:+ r) = Some r.
Proof. now apply strip_prefix_spec. Qed.

Lemma HasPrefix_spec (s p : string) :
  HasPrefix s p = true <-> exists r, s = p +:+ r.
Proof.
  unfold HasPrefix. destruct (strip_prefix p s) as [r|] eqn:E.
  - apply strip_prefix_spec in E. split; eauto.
  - split; [discriminate|]. intros [r Hr].
    apply strip_prefix_spec in Hr. congruence.
Qed.

(** [cut] finds an instance of the separator, and the leftmost one. *)
Lemma cut_Some (sep s a b : string) :
  cut sep s = Some (a, b) -> s = a +:+ sep +:+ b.
Proof.
  revert a b; induction s as [|c s IH]; intros a b; simpl.
  - destruct (strip_prefix sep "") as [r|] eqn:E; [|discriminate].
    intros [= <- <-]. now apply strip_prefix_spec in E.
  - destruct (strip_prefix sep (String c s)) as [r|] eqn:E.
    + intros [= <- <-]. now apply strip_prefix_spec in E.
    + destruct (cut sep s) as [[a' b']|]; [|discriminate].
      intros [= <- <-]. simpl. f_equal. now apply IH.
Qed.

Lemma Contains_cut (s sep : string) :
  Contains s sep = match cut sep s with Some _ => true | None => false end.
Proof.
  induction s as [|c s IH]; simpl.
  - now destruct (strip_prefix sep "").
  - destruct (strip_prefix sep (String c s)); [reflexivity|].
    rewrite IH. now destruct (cut sep s) as [[? ?]|].
Qed.

Lemma Contains_here (p b : string) : Contains (p +:+ b) p = true.
Proof.
  pose proof (strip_prefix_app p b) as Hp.
  destruct (p +:+ b); simpl; now rewrite Hp.
Qed.

Lemma Contains_occurs (s p : string) : Contains s p = true <-> occurs p s.
Proof.
  split.
  - rewrite Contains_cut. destruct (cut p s) as [[a b]|] eqn:E; [|discriminate].
    intros _. exists a, b. now apply cut_Some.
  - intros (a & b & ->). induction a as [|c a IH]; simpl.
    + apply Contains_here.
    + destruct (strip_prefix p (String c (a +:+ p +:+ b))); [reflexivity|].
      exact IH.
Qed.

Lemma Contains_false_occurs (s p : string) :
  Contains s p = false <-> ~ occurs p s.
Proof.
  rewrite <- Contains_occurs. destruct (Contains s p); split; congruence.
Qed.

Lemma Contains_app_l (a x p : string) :
  Contains (a +:+ x) p = false -> Contains a p = false.
Proof.
  rewrite !Contains_false_occurs. intros Hn (u & v & ->). apply Hn.
  exists u, (v +:+ x). now rewrite !append_assoc.
Qed.

Lemma Contains_app_r (a x p : string) :
  Contains (a +:+ x) p = false -> Contains x p = false.
Proof.
  rewrite !Contains_false_occurs. intros Hn (u & v & ->). apply Hn.
  exists (a +:+ u), v. now rewrite !append_assoc.
Qed.

(** Nothing before the instance [cut] finds contains the separator. *)
Lemma cut_before (sep s a b : string) :
  sep <> "" -> cut sep s = Some (a, b) -> Contains a sep = false.
Proof.
  intros Hsep. revert a b; induction s as [|c s IH]; intros a b; simpl.
  - destruct (strip_prefix sep "") as [r|] eqn:E; [|discriminate].
    intros [= <- <-]. destruct sep; [congruence|reflexivity].
  - destruct (strip_prefix sep (String c s)) as [r|] eqn:E.
    + intros [= <- <-]. destruct sep; [congruence|reflexivity].
    + destruct (cut sep s) as [[a' b']|] eqn:Ec; [|discriminate].
      intros [= <- <-]. simpl.
      destruct (strip_prefix sep (String c a')) as [r|] eqn:E'.
      * apply strip_prefix_spec in E'. apply cut_Some in Ec. subst s.
        change (String c (a' +:+ sep +:+ b')) with (String c a' +:+ sep +:+ b') in E.
        rewrite E', append_assoc in E. now rewrite strip_prefix_app in E.
      * now apply (IH a' b').
Qed.

Lemma cut_length (sep s a b : string) :
  sep <> "" -> cut sep s = Some (a, b) ->
  (String.length b < String.length s)%nat.
Proof.
  intros Hsep Hc. apply cut_Some in Hc. subst s.
  rewrite !length_append. destruct sep; [congruence|simpl; lia].
Qed.

(** The fuel of [Replace] is enough: the loop unfolds as the source reads. *)
Lemma replace_loop_fuel (old new : string) (f1 f2 : nat) (s : string) (n : Z) :
  old <> "" -> (String.length s < f1)%nat -> (String.length s < f2)%nat ->
  replace_loop f1 old new s n = replace_loop f2 old new s n.
Proof.
  intros Hold. revert f2 s n.
  induction f1 as [|f1 IH]; intros f2 s n H1 H2; [lia|].
  destruct f2 as [|f2]; [lia|]. simpl.
  destruct (n =? 0); [reflexivity|].
  destruct (cut old s) as [[a b]|] eqn:E; [|reflexivity].
  pose proof (cut_length _ _ _ _ Hold E).
  do 2 f_equal. apply IH; lia.
Qed.

Lemma replace_loop_S (f : nat) (old new s : string) (n : Z) :
  replace_loop (S f) old new s n =
    if n =? 0 then s
    else match cut old s with
         | None => s
         | Some (a, b) => a +:+ new +:+ replace_loop f old new b (n - 1)
         end.
Proof. reflexivity. Qed.

Lemma Replace_eq (s old new : string) (n : Z) :
  old <> "" ->
  Replace s old new n =
    if n =? 0 then s
    else match cut old s with
         | None => s
         | Some (a, b) => a +:+ new +:+ Replace b old new (n - 1)
         end.
Proof.
  intros Hold. unfold Replace. destruct old as [|o old]; [congruence|].
  rewrite replace_loop_S. destruct (n =? 0); [reflexivity|].
  destruct (cut (String o old) s) as [[a b]|] eqn:E; [|reflexivity].
  pose proof (cut_length _ _ _ _ Hold E).
  do 2 f_equal. apply replace_loop_fuel; [assumption|lia..].
Qed.

Lemma Replace_absent (s old new : string) (n : Z) :
  ~ occurs old s -> Replace s old new n = s.
Proof.
  intros Hn. destruct old as [|o old]; [reflexivity|].
  rewrite Replace_eq by discriminate. destruct (n =? 0); [reflexivity|].
  apply Contains_false_occurs in Hn. rewrite Contains_cut in Hn.
  now destruct (cut (String o old) s) as [[? ?]|].
Qed.

Lemma cut_here (p b : string) : cut p (p +:+ b) = Some ("", b).
Proof.
  pose proof (strip_prefix_app p b) as Hp.
  destruct (p +:+ b); simpl; now rewrite Hp.
Qed.

Lemma Contains_cons (c : ascii) (s p : string) :
  Contains s p = true -> Contains (String c s) p = true.
Proof. intros Hs. simpl. now destruct (strip_prefix p (String c s)). Qed.

(** A text that starts in [a] and runs into what follows [a] has the
    first byte of what follows somewhere after its own first byte. *)
Lemma strip_prefix_app_sep (c : ascii) (x Q a : string) :
  a <> "" ->
  match Q with "" => true | String _ Q' => negb (Contains Q' (String c "")) end
    = true ->
  strip_prefix Q (a +:+ String c x) <> None -> strip_prefix Q a <> None.
Proof.
  revert Q; induction a as [|a0 a IH]; intros Q Ha HQ Hs; [congruence|].
  destruct Q as [|q0 Q]; [discriminate|]. simpl in *.
  destruct (Ascii.eqb q0 a0); [|congruence].
  apply negb_true_iff in HQ.
  destruct a as [|a1 a].
  - simpl in Hs. destruct Q as [|q1 Q]; [discriminate|]. simpl in *.
    destruct (Ascii.eqb_spec q1 c) as [->|_]; [|congruence].
    rewrite Ascii.eqb_refl in HQ. discriminate.
  - apply IH; [discriminate| |exact Hs].
    destruct Q as [|q1 Q]; [reflexivity|]. apply negb_true_iff.
    simpl in HQ. destruct (Ascii.eqb c q1); [discriminate|].
    destruct Q; [reflexivity|exact HQ].
Qed.

Lemma Contains_app_sep (c : ascii) (x P a : string) :
  match P with "" => true | String _ P' => negb (Contains P' (String c "")) end
    = true ->
  Contains (a +:+ String c x) P = true ->
  Contains a P = true \/ Contains (String c x) P = true.
Proof.
  intros HP. induction a as [|a0 a IH]; intros Hc; [now right|].
  change (String a0 a +:+ String c x) with (String a0 (a +:+ String c x)) in Hc.
  simpl in Hc.
  destruct (strip_prefix P (String a0 (a +:+ String c x))) as [r|] eqn:E.
  - left. assert (Hs : strip_prefix P (String a0 a) <> None).
    { apply (strip_prefix_app_sep c x); [discriminate|exact HP|].
      simpl. rewrite E. discriminate. }
    simpl. destruct (strip_prefix P (String a0 a)); [reflexivity|congruence].
  - destruct (IH Hc) as [Hl|Hr]; [left|now right].
    now apply Contains_cons.
Qed.

Lemma cut_first (sep s a b a' b' : string) :
  cut sep s = Some (a, b) -> s = a' +:+ sep +:+ b' ->
  (String.length a <= String.length a')%nat.
Proof.
  revert a b a'. induction s as [|c s IH]; intros a b a' Hc Heq; simpl in Hc.
  - destruct (strip_prefix sep ""); [|discriminate].
    injection Hc as <- _. simpl. lia.
  - destruct (strip_prefix sep (String c s)) as [r|] eqn:E.
    + injection Hc as <- _. simpl. lia.
    + destruct (cut sep s) as [[a0 b0]|] eqn:Ec; [|discriminate].
      injection Hc as <- _. destruct a' as [|c' a'].
      * simpl in Heq. rewrite Heq, strip_prefix_app in E. discriminate.
      * simpl in Heq. injection Heq as _ Heq.
        specialize (IH a0 b0 a' eq_refl Heq). simpl. lia.
Qed.

Lemma cut_leftmost (sep s a b : string) :
  cut sep s = Some (a, b) -> leftmost sep a b.
Proof.
  intros Hc a' b' Heq. rewrite <- (cut_Some _ _ _ _ Hc) in Heq.
  exact (cut_first _ _ _ _ _ _ Hc Heq).
Qed.

Lemma cut_None (sep s : string) : cut sep s = None -> ~ occurs sep s.
Proof.
  intros Hc. apply Contains_false_occurs. now rewrite Contains_cut, Hc.
Qed.

(** [strings.Replace] with a negative count rewrites every instance. *)
Lemma Replace_RewrittenAll (s old new : string) (n : Z) :
  old <> "" -> n < 0 -> RewrittenAll old new s (Replace s old new n).
Proof.
  intros Hold. remember (String.length s) as k eqn:Hk.
  revert s n Hk. induction k as [k IH] using lt_wf_ind. intros s n Hk Hn.
  rewrite Replace_eq by assumption.
  destruct (Z.eqb_spec n 0) as [->|_]; [lia|].
  destruct (cut old s) as [[a b]|] eqn:E.
  - pose proof (cut_length _ _ _ _ Hold E) as Hlen.
    rewrite (cut_Some _ _ _ _ E) at 1.
    constructor; [now apply cut_leftmost with (s := s)|].
    apply (IH (String.length b)); [lia|reflexivity|lia].
  - constructor. now apply cut_None.
Qed.

(** [strings.Replace] with count one rewrites the first instance. *)
Lemma Replace_RewrittenFirst (s old new : string) :
  old <> "" -> RewrittenFirst old new s (Replace s old new 1).
Proof.
  intros Hold. rewrite Replace_eq by assumption. simpl.
  destruct (cut old s) as [[a b]|] eqn:E.
  - rewrite (cut_Some _ _ _ _ E) at 1.
    rewrite (Replace_eq b) by assumption. simpl.
    constructor. now apply cut_leftmost with (s := s).
  - constructor. now apply cut_None.
Qed.

End StringFacts.

(** ** Command text: the references to the VERSION file *)
Section VersionFile.

Import GoStrings.

(** A text [$(...] with no further dollar sign, as the three references
    to the VERSION file are. *)
Variable body : string.
Hypothesis body_no_dollar : Contains (String "(" body) "$" = false.

Local Abbreviation P := (String "$" (String "(" body)).

Lemma P_tail : negb (Contains (String "(" body) (String "$" "")) = true.
Proof. now rewrite body_no_dollar. Qed.

Lemma Contains_after_new (t : string) :
  Contains ("${VERSION}" +:+ t) P = Contains t P.
Proof. reflexivity. Qed.

Lemma Contains_around_new (a t : string) :
  Contains a P = false -> Contains t P = false ->
  Contains (a +:+ "${VERSION}" +:+ t) P = false.
Proof.
  intros Ha Ht.
  destruct (Contains (a +:+ "${VERSION}" +:+ t) P) eqn:E; [|reflexivity].
  apply (Contains_app_sep "$" ("{VERSION}" +:+ t) P a P_tail) in E.
  destruct E as [E|E]; [congruence|].
  change (String "$" ("{VERSION}" +:+ t)) with ("${VERSION}" +:+ t) in E.
  rewrite Contains_after_new in E. congruence.
Qed.

(** Rewriting some text to [${VERSION}] brings no reference in. *)
Lemma Replace_keeps_clean (s old : string) (n : Z) :
  old <> "" -> Contains s P = false ->
  Contains (Replace s old "${VERSION}" n) P = false.
Proof.
  intros Hold. remember (String.length s) as k eqn:Hk.
  revert s n Hk. induction k as [k IH] using lt_wf_ind. intros s n Hk Hs.
  rewrite Replace_eq by assumption.
  destruct (n =? 0); [assumption|].
  destruct (cut old s) as [[a b]|] eqn:E; [|assumption].
  pose proof (cut_length _ _ _ _ Hold E) as Hlen.
  apply cut_Some in E. subst s.
  apply Contains_around_new.
  - now apply Contains_app_l in Hs.
  - apply (IH (String.length b)); [lia|reflexivity|].
    now apply Contains_app_r, Contains_app_r in Hs.
Qed.

(** Rewriting every reference leaves none. *)
Lemma Replace_all_clean (s : string) (n : Z) :
  n < 0 -> Contains (Replace s P "${VERSION}" n) P = false.
Proof.
  remember (String.length s) as k eqn:Hk.
  revert s n Hk. induction k as [k IH] using lt_wf_ind. intros s n Hk Hn.
  rewrite Replace_eq by discriminate.
  destruct (Z.eqb_spec n 0) as [->|_]; [lia|].
  destruct (cut P s) as [[a b]|] eqn:E.
  - pose proof (cut_length P _ _ _ ltac:(discriminate) E) as Hlen.
    apply Contains_around_new.
    + now apply (cut_before P s a b).
    + apply (IH (String.length b)); [lia|reflexivity|lia].
  - rewrite Contains_cut, E. reflexivity.
Qed.

End VersionFile.

(** ** Command text: [replaceCommandText] *)
Section CommandText.

Import GoStrings.

Lemma cut_escape_after_export (rest : string) :
  cut "\$" ("export VERSION=`cat VERSION` && " +:+ rest) =
    match cut "\$" rest with
    | Some (a, b) => Some ("export VERSION=`cat VERSION` && " +:+ a, b)
    | None => None
    end.
Proof. simpl. now destruct (cut "\$" rest) as [[a b]|]. Qed.

Lemma unescape_after_export (rest : string) :
  Replace ("export VERSION=`cat VERSION` && " +:+ rest) "\$" "$" (-1) =
  "export VERSION=`cat VERSION` && " +:+ Replace rest "\$" "$" (-1).
Proof.
  rewrite (Replace_eq _ "\$") by discriminate.
  rewrite (Replace_eq rest "\$") by discriminate.
  change (-1 =? 0) with false. cbv iota.
  rewrite cut_escape_after_export.
  destruct (cut "\$" rest) as [[a b]|]; [|reflexivity].
  now rewrite append_assoc.
Qed.

Lemma remove_export_prefix (u : string) :
  Replace ("export VERSION=`cat VERSION` && " +:+ u)
    "export VERSION=`cat VERSION` && " "" 1 = u.
Proof.
  rewrite Replace_eq by discriminate. change (1 =? 0) with false. cbv iota.
  rewrite cut_here. rewrite Replace_eq by discriminate. reflexivity.
Qed.

(** C8. [replaceCommandText] performs the rewrites the spec states, on
    every step: escaped dollar signs are unescaped, the first
    [export VERSION=`cat VERSION` && ] is taken out, then every reference
    to the VERSION file (also one or two directories up) becomes
    [${VERSION}], and none is left; a command that starts with the export
    loses it; and the two commands of the spec give the results stated. *)
Theorem replaceCommandText_rewrites :
  (forall step : PipelineStep,
     let r := replaceCommandText step in
     (exists u e r1 r2,
         RewrittenAll "\$" "$" (Step_Command step) u /\
         RewrittenFirst "export VERSION=`cat VERSION` && " "" u e /\
         RewrittenAll "$(cat VERSION)" "${VERSION}" e r1 /\
         RewrittenAll "$(cat ../VERSION)" "${VERSION}" r1 r2 /\
         RewrittenAll "$(cat ../../VERSION)" "${VERSION}" r2 r) /\
     ~ occurs "$(cat VERSION)" r /\
     ~ occurs "$(cat ../VERSION)" r /\
     ~ occurs "$(cat ../../VERSION)" r) /\
  (forall rest : string,
     replaceCommandText
       (commandStep ("export VERSION=`cat VERSION` && " +:+ rest)) =
     fold_left (fun answer text => Replace answer text "${VERSION}" (-1))
       ["$(cat VERSION)"; "$(cat ../VERSION)"; "$(cat ../../VERSION)"]
       (Replace rest "\$" "$" (-1))) /\
  replaceCommandText (commandStep "export VERSION=`cat VERSION` && npm test")
    = "npm test" /\
  replaceCommandText (commandStep "echo $(cat VERSION)") = "echo ${VERSION}".
Proof.
  repeat split; try reflexivity.
  - exists (Replace (Step_Command step) "\$" "$" (-1)).
    exists (Replace (Replace (Step_Command step) "\$" "$" (-1))
              "export VERSION=`cat VERSION` && " "" 1).
    eexists. eexists.
    repeat split;
      [ apply Replace_RewrittenAll; [discriminate|lia]
      | apply Replace_RewrittenFirst; discriminate
      | apply (Replace_RewrittenAll _ _ _ (-1)); [discriminate|lia] .. ].
  - apply Contains_false_occurs. unfold replaceCommandText. cbn [fold_left].
    apply (Replace_keeps_clean "cat VERSION)"); [reflexivity|discriminate|].
    apply (Replace_keeps_clean "cat VERSION)"); [reflexivity|discriminate|].
    apply (Replace_all_clean "cat VERSION)"); [reflexivity|lia].
  - apply Contains_false_occurs. unfold replaceCommandText. cbn [fold_left].
    apply (Replace_keeps_clean "cat ../VERSION)"); [reflexivity|discriminate|].
    apply (Replace_all_clean "cat ../VERSION)"); [reflexivity|lia].
  - apply Contains_false_occurs. unfold replaceCommandText. cbn [fold_left].
    apply (Replace_all_clean "cat ../../VERSION)"); [reflexivity|lia].
  - intros rest. unfold replaceCommandText, commandStep. cbn [Step_Command].
    now rewrite unescape_after_export, remove_export_prefix.
Qed.

End CommandText.

(** ** The environment injector *)
Section EnvVars.








End EnvVars.

(** ** The volume injector *)
Section Volumes.









End Volumes.

(** ** Injection is idempotent *)
Section Idempotence.










End Idempotence.

(** ** Reasoning in the monad *)
Section Monad.

Context `{Platform}.

Lemma bind_Ok {A B} (m : M A) (k : A -> M B) (s s' : State) (b : B) :
  bind m k s = (Ok b, s') <->
  exists a s1, m s = (Ok a, s1) /\ k a s1 = (Ok b, s').
Proof.
  unfold bind. destruct (m s) as [[a|e|e] s1]; split.
  - eauto.
  - intros (a' & s1' & [= <- <-] & Hk). exact Hk.
  - discriminate.
  - intros (a' & s1' & [=] & _).
  - discriminate.
  - intros (a' & s1' & [=] & _).
Qed.

Lemma bind_eq {A B} (m : M A) (k : A -> M B) (s s1 : State) (a : A) :
  m s = (Ok a, s1) -> bind m k s = k a s1.
Proof. unfold bind. now intros ->. Qed.

Lemma bind_ext {A B} (m : M A) (k1 k2 : A -> M B) (s : State) :
  (forall a s1, k1 a s1 = k2 a s1) -> bind m k1 s = bind m k2 s.
Proof. intros Hk. unfold bind. now destruct (m s) as [[a|e|e] s1]. Qed.

Lemma bind_cong {A B} (m1 m2 : M A) (k : A -> M B) (s : State) :
  m1 s = m2 s -> bind m1 k s = bind m2 k s.
Proof. unfold bind. now intros ->. Qed.

Lemma bind_Panic {A B} (m : M A) (k : A -> M B) (s s1 : State) (e : string) :
  m s = (Panic e, s1) -> bind m k s = (Panic e, s1).
Proof. unfold bind. now intros ->. Qed.

Lemma sameButCounters_refl (o : StepCreateTaskOptions) : sameButCounters o o.
Proof. now destruct o. Qed.

Lemma sameButCounters_trans (o1 o2 o3 : StepCreateTaskOptions) :
  sameButCounters o1 o2 -> sameButCounters o2 o3 -> sameButCounters o1 o3.
Proof.
  unfold sameButCounters. intros H12 H23. rewrite H23, H12.
  now destruct o1.
Qed.


(** Induction on a tree of steps. *)
Lemma PipelineStep_tree_ind (P : PipelineStep -> Prop) :
  (forall name command dir container when children,
     Forall P children -> P (mkStep name command dir container when children)) ->
  forall step, P step.
Proof.
  intros Hstep. fix IH 1. intros [name command dir container when children].
  apply Hstep. induction children as [|child rest IHrest]; constructor.
  - apply IH.
  - exact IHrest.
Qed.

End Monad.

(** ** Compiling steps *)
Section CreateSteps.

Context `{Platform}.

(** [createSteps] as the source reads: the loop over the children is the
    loop over the steps of a lifecycle, with the prefix for stage. *)
Lemma createSteps_eq (step : PipelineStep)
    (containerName dir prefixPath : string) (s : State) :
  createSteps step containerName dir prefixPath s =
  (let '(containerName, dir) :=
     if nonEmpty (Step_Container step) then (Step_Container step, dir)
     else if nonEmpty (Step_Dir step) then (containerName, Step_Dir step)
     else (containerName, dir) in
   o <- getOpts ;;
   dir <-
     match gitInfo o with
     | Some gitInfo =>
         let dir :=
           GoStrings.Replace dir "REPLACE_ME_APP_NAME" (Git_Name gitInfo) (-1) in
         ret (GoStrings.Replace dir "REPLACE_ME_ORG"
                (Git_Organisation gitInfo) (-1))
     | None => log (Warn "No GitInfo available!") ;; ret dir
     end ;;
   leaf <-
     (if nonEmpty (Step_Command step)
      then createLeaf step containerName dir prefixPath
      else ret ([], [], containerName, dir)) ;;
   let '(steps, volumes, containerName, dir) := leaf in
   createLifecycleSteps prefixPath (Step_Steps step) containerName dir
     steps volumes) s.
Proof.
  destruct step as [name command sdir scontainer when children].
  cbn [createSteps Step_Container Step_Dir Step_Command Step_Steps].
  assert (Hloop : forall l cn d steps volumes s0,
    (fix loop (rest : list PipelineStep) (steps : list Container)
         (volumes : list Volume) : M (list Container * list Volume) :=
       match rest with
       | [] => ret (steps, volumes)
       | s1 :: rest' =>
           let childPrefixPath := prefixPath in
           child <- createSteps s1 cn d childPrefixPath ;;
           let '(childSteps, v) := child in
           loop rest' (steps ++ childSteps) (CombineVolumes volumes v)
       end) l steps volumes s0 =
    createLifecycleSteps prefixPath l cn d steps volumes s0).
  { induction l as [|s1 rest IH]; intros cn d steps volumes s0; [reflexivity|].
    cbn [createLifecycleSteps]. apply bind_ext. intros [cs v] s2. apply IH. }
  destruct (if nonEmpty scontainer then (scontainer, dir)
            else if nonEmpty sdir then (containerName, sdir)
            else (containerName, dir)) as [cn d].
  apply bind_ext; intros o s1.
  apply bind_ext; intros d' s2.
  apply bind_ext; intros [[[steps volumes] cn'] d''] s3.
  apply Hloop.
Qed.

(** Compiling steps leaves the world alone, and the receiver but for the
    step counter and the set of missing pod templates. *)
Lemma createLeaf_frame (step : PipelineStep)
    (containerName dir prefixPath : string) (s s' : State)
    (r : result (list Container * list Volume * string * string)) :
  createLeaf step containerName dir prefixPath s = (r, s') ->
  compileFrame s s'.
Proof.
  intros Heq. destruct s as [o l w].
  unfold createLeaf, bind, ret, getOpts, modifyOpts, log, fail, panic in Heq.
  cbn [opts logs world] in *.
  repeat case_match; simplify_eq; cbn [opts logs world];
    (split; [reflexivity|]); unfold sameButCounters; now destruct o.
Qed.

Lemma compileFrame_refl (s : State) : compileFrame s s.
Proof. split; [reflexivity|apply sameButCounters_refl]. Qed.

Lemma compileFrame_trans (s1 s2 s3 : State) :
  compileFrame s1 s2 -> compileFrame s2 s3 -> compileFrame s1 s3.
Proof.
  intros [Hw1 Ho1] [Hw2 Ho2]. split; [congruence|].
  now apply sameButCounters_trans with (o2 := opts s2).
Qed.

Lemma compileFrame_log (s : State) (e : LogEntry) :
  compileFrame s (mkState (opts s) (logs s ++ [e]) (world s)).
Proof. split; [reflexivity|apply sameButCounters_refl]. Qed.

Lemma createLifecycleSteps_frame_of (ss : list PipelineStep) :
  Forall
    (fun step =>
       forall cn d p s r s',
         createSteps step cn d p s = (r, s') -> compileFrame s s') ss ->
  forall stage cn d steps volumes s r s',
    createLifecycleSteps stage ss cn d steps volumes s = (r, s') ->
    compileFrame s s'.
Proof.
  induction 1 as [|step rest Hstep _ IH];
    intros stage cn d steps volumes s r s' Heq.
  - injection Heq as _ <-. apply compileFrame_refl.
  - cbn [createLifecycleSteps] in Heq. unfold bind in Heq.
    destruct (createSteps step cn d stage s) as [[[cs v]|e|e] s1] eqn:E;
      apply Hstep in E.
    + apply IH in Heq. now apply compileFrame_trans with (s2 := s1).
    + now injection Heq as _ <-.
    + now injection Heq as _ <-.
Qed.

Lemma createSteps_frame (step : PipelineStep) :
  forall cn d p s r s',
    createSteps step cn d p s = (r, s') -> compileFrame s s'.
Proof.
  induction step as [name command sdir scontainer when children IH]
    using PipelineStep_tree_ind.
  intros cn d p s r s'. rewrite createSteps_eq.
  cbn [Step_Container Step_Dir Step_Command Step_Steps].
  destruct (if nonEmpty scontainer then (scontainer, d)
            else if nonEmpty sdir then (cn, sdir) else (cn, d)) as [cn0 d0].
  unfold bind at 1. cbn [getOpts].
  unfold bind at 1.
  destruct (match gitInfo (opts s) with
            | Some gitInfo =>
                ret (GoStrings.Replace
                       (GoStrings.Replace d0 "REPLACE_ME_APP_NAME"
                          (Git_Name gitInfo) (-1))
                       "REPLACE_ME_ORG" (Git_Organisation gitInfo) (-1))
            | None => log (Warn "No GitInfo available!");; ret d0
            end s) as [[d1|e|e] s1] eqn:Edir.
  2,3: destruct (gitInfo (opts s)); discriminate.
  assert (Hs1 : compileFrame s s1).
  { destruct (gitInfo (opts s)).
    - injection Edir as _ <-. apply compileFrame_refl.
    - injection Edir as _ <-. apply compileFrame_log. }
  unfold bind at 1.
  destruct ((if nonEmpty command
             then createLeaf (mkStep name command sdir scontainer when children)
                    cn0 d1 p
             else ret ([], [], cn0, d1)) s1)
    as [[[[[steps volumes] cn2] d2]|e|e] s2] eqn:Eleaf.
  all: assert (Hs2 : compileFrame s1 s2)
         by (destruct (nonEmpty command);
             [now apply createLeaf_frame in Eleaf
             |unfold ret in Eleaf; inversion Eleaf; subst;
              apply compileFrame_refl]).
  - intros Heq. apply (createLifecycleSteps_frame_of _ IH) in Heq.
    eauto using compileFrame_trans.
  - intros [= _ <-]. eauto using compileFrame_trans.
  - intros [= _ <-]. eauto using compileFrame_trans.
Qed.

Lemma createLifecycleSteps_frame (stage : string) (ss : list PipelineStep)
    (cn d : string) (steps : list Container) (volumes : list Volume)
    (s s' : State) (r : result (list Container * list Volume)) :
  createLifecycleSteps stage ss cn d steps volumes s = (r, s') ->
  compileFrame s s'.
Proof.
  apply createLifecycleSteps_frame_of. apply Forall_forall.
  intros step _. apply createSteps_frame.
Qed.

End CreateSteps.

(** ** The stages compiled on the build-pack path *)
Section Stages.

Context `{Platform}.






End Stages.


(** ** Kinds without lifecycles *)
Section NoLifecycles.

Context `{Platform}.

(** C2, amended.  For the kinds pullrequest and feature, when the
    configuration has no lifecycles of the kind asked for, [generateTask]
    succeeds and does nothing: no error, the state as it was. *)
Theorem generateTask_without_lifecycles (name : string)
    (pipelineConfig : PipelineConfig ParsedPipeline) (s : State) :
  (PipelineKind (opts s) = PipelineKindPullRequest /\
   PullRequest (Config_Pipelines pipelineConfig) = None) \/
  (PipelineKind (opts s) = PipelineKindFeature /\
   Feature (Config_Pipelines pipelineConfig) = None) ->
  generateTask name pipelineConfig s = (Ok pipelineConfig, s).
Proof.
  intros [[Hkind Hnone]|[Hkind Hnone]];
    unfold generateTask, bind, getOpts; rewrite Hkind, Hnone; reflexivity.
Qed.

End NoLifecycles.

Lemma generateTask_without_lifecycles_witness :
  generateTask "maven" releaseOnlyConfig
    (demoState (set_PipelineKind "feature" mavenOptions))
  = (Ok releaseOnlyConfig, demoState (set_PipelineKind "feature" mavenOptions)).
Proof.
  apply generateTask_without_lifecycles. right. split; reflexivity.
Defined.

(** As the spec states it the property fails: asked for a pull request
    pipeline of a configuration that has none, the compiler returns
    without an error. *)
Lemma generateTask_pullrequest_without_lifecycles :
  PullRequest (Config_Pipelines releaseOnlyConfig) = None /\
  fst (generateTask "maven" releaseOnlyConfig
         (demoState (set_PipelineKind "pullrequest" mavenOptions)))
  = Ok releaseOnlyConfig /\
  snd (generateTask "maven" releaseOnlyConfig
         (demoState (set_PipelineKind "pullrequest" mavenOptions)))
  = demoState (set_PipelineKind "pullrequest" mavenOptions).
Proof. repeat split; reflexivity. Qed.

(** ** A release needs a setversion stage *)
Section MissingVersionStage.

Context `{Platform}.

(** C5.  For the kind release, with version setting enabled and no
    listing of steps asked for, a configuration without release
    lifecycles, or whose release lifecycles have no setversion stage,
    makes version resolution fail with the error that says so, and [Run]
    returns it, wrapped, without generating anything: the state is as it
    was. *)
Theorem release_without_setversion (name pipelineFile : string)
    (pipelineConfig : PipelineConfig ParsedPipeline) (s : State) :
  PipelineKind (opts s) = PipelineKindRelease ->
  NoSetVersion (opts s) = false ->
  ViewSteps (opts s) = false ->
  (Release (Config_Pipelines pipelineConfig) = None \/
   exists release,
     Release (Config_Pipelines pipelineConfig) = Some release /\
     SetVersion release = None) ->
  exists msg,
    (msg = "no Release pipeline available" \/
     msg = "no SetVersion pipeline on the Release pipeline") /\
    setVersionOnReleasePipelines pipelineConfig s = (Err msg, s) /\
    Run name pipelineFile pipelineConfig s =
      (Err (Wrapf msg "failed to set the version on release pipelines"), s).
Proof.
  intros Hkind Hset Hview Hcfg.
  assert (Hsv : exists msg,
    (msg = "no Release pipeline available" \/
     msg = "no SetVersion pipeline on the Release pipeline") /\
    setVersionOnReleasePipelines pipelineConfig s = (Err msg, s)).
  { unfold setVersionOnReleasePipelines, bind, getOpts.
    rewrite Hkind, Hset, Hview. cbn [orb].
    change (String.eqb PipelineKindRelease PipelineKindRelease) with true.
    cbv iota.
    destruct Hcfg as [->|(release & -> & ->)].
    - exists "no Release pipeline available". split; [now left|reflexivity].
    - exists "no SetVersion pipeline on the Release pipeline".
      split; [now right|reflexivity]. }
  destruct Hsv as (msg & Hmsg & Hsv). exists msg. repeat split; try assumption.
  unfold Run, bind, wrapping. now rewrite Hsv.
Qed.

End MissingVersionStage.

Lemma release_without_setversion_witness :
  exists msg,
    (msg = "no Release pipeline available" \/
     msg = "no SetVersion pipeline on the Release pipeline") /\
    setVersionOnReleasePipelines noVersionStageConfig (demoState mavenOptions)
    = (Err msg, demoState mavenOptions) /\
    Run "maven" "pipeline.yaml" noVersionStageConfig (demoState mavenOptions) =
      (Err (Wrapf msg "failed to set the version on release pipelines"),
       demoState mavenOptions).
Proof.
  apply release_without_setversion; try reflexivity.
  right. eexists. split; reflexivity.
Defined.

(** ** Version resolution *)
Section Version.

Context `{Platform}.

Lemma invokeStep_eq (step : PipelineStep) (s : State) :
  invokeStep step s =
  (invokeSteps (Step_Steps step) ;;
   let when := GoStrings.TrimSpace (Step_When step) in
   if String.eqb when "!prow" || String.eqb (Step_Command step) "" then ret tt
   else runStepCommand step) s.
Proof.
  destruct step as [name command sdir scontainer when children].
  cbn [invokeStep Step_Steps Step_When Step_Command].
  assert (Hloop : forall l s0,
    (fix invokeChildren (steps : list PipelineStep) : M unit :=
       match steps with
       | [] => ret tt
       | s' :: rest => invokeStep s';; invokeChildren rest
       end) l s0 = invokeSteps l s0).
  { induction l as [|s1 rest IH]; intros s0; [reflexivity|].
    cbn [invokeSteps]. apply bind_ext. intros _ s2. apply IH. }
  unfold bind at 1 2. rewrite Hloop. reflexivity.
Qed.






End Version.


(** ** Pod templates *)
Section PodTemplates.

Context `{Platform}.

(** The three ways compiling a command can end when its container has no
    pod template: by whether the default template is there, and has a
    container.  The name is recorded as missing in each. *)
Lemma createLeaf_missing_template (step : PipelineStep)
    (containerName dir prefixPath : string) (s : State) :
  let name :=
    if String.eqb containerName "" then defaultContainerName
    else containerName in
  PodTemplates (opts s) !! name = None ->
  match PodTemplates (opts s) !! defaultContainerName with
  | None =>
      exists s',
        createLeaf step containerName dir prefixPath s
        = (Panic nilDereference, s') /\
        MissingPodTemplates (opts s') !! name = Some true
  | Some pod =>
      match Pod_Containers pod with
      | [] =>
          exists s',
            createLeaf step containerName dir prefixPath s
            = (Err ("No Containers for pod template " +:+ name), s') /\
            MissingPodTemplates (opts s') !! name = Some true
      | c :: _ =>
          exists c' volumes dir' s',
            createLeaf step containerName dir prefixPath s
            = (Ok ([c'], volumes, name, dir'), s') /\
            Container_Image c' =
              (if nonEmpty (CustomImage (opts s)) then CustomImage (opts s)
               else Container_Image c) /\
            MissingPodTemplates (opts s') !! name = Some true
      end
  end.
Proof.
  intros name Habsent. destruct s as [o l w]. cbn [opts] in *.
  unfold createLeaf, bind, ret, getOpts, modifyOpts, log, fail, panic.
  cbn [opts logs world]. subst name.
  destruct (String.eqb containerName "") eqn:En; cbn [opts logs world];
    rewrite Habsent; cbn [opts logs world].
  - eexists. split; [reflexivity|]. cbn. apply lookup_insert_eq.
  - destruct (PodTemplates o !! defaultContainerName) as [pod|].
    + destruct (Pod_Containers pod) as [|c cs].
      * eexists. split; [reflexivity|]. cbn. apply lookup_insert_eq.
      * destruct (modifyVolumes _ _) as [c1 v1] eqn:Ev.
        do 4 eexists. split; [reflexivity|]. split; [|cbn; apply lookup_insert_eq].
        unfold modifyVolumes in Ev. injection Ev as <- _.
        cbn [CustomImage set_stepCounter set_MissingPodTemplates opts].
        destruct (nonEmpty (CustomImage o)); [reflexivity|].
        cbn [Container_Image set_Container_TTY set_Container_Stdin
             set_Container_WorkingDir set_Container_Args set_Container_Command
             modifyEnvVars set_Container_Env].
        now destruct (ContainsVolumeMount _ _).
    + eexists. split; [reflexivity|]. cbn. apply lookup_insert_eq.
Qed.
(** [createSteps] after its first lines: the command of the step, if it
    has one, then the children, with the container name and directory the
    step hands on. *)
Lemma createSteps_from (step : PipelineStep)
    (containerName dir prefixPath : string) (s : State) :
  createSteps step containerName dir prefixPath s =
  (leaf <-
     (if nonEmpty (Step_Command step)
      then createLeaf step (stepContainer step containerName)
             (stepDir (opts s) step dir) prefixPath
      else ret ([], [], stepContainer step containerName,
                stepDir (opts s) step dir)) ;;
   let '(steps, volumes, containerName, dir) := leaf in
   createLifecycleSteps prefixPath (Step_Steps step) containerName dir
     steps volumes) (gitInfoChecked s).
Proof.
  rewrite createSteps_eq. unfold stepContainer, stepDir, gitInfoChecked.
  destruct (nonEmpty (Step_Container step)); [|destruct (nonEmpty (Step_Dir step))];
    unfold bind at 1; cbn [getOpts]; destruct (gitInfo (opts s)); reflexivity.
Qed.

Lemma gitInfoChecked_opts (s : State) : opts (gitInfoChecked s) = opts s.
Proof. unfold gitInfoChecked. now destruct (gitInfo (opts s)). Qed.

Lemma createLeaf_step (a b : PipelineStep) (cn d p : string) (s : State) :
  Step_Name a = Step_Name b -> Step_Command a = Step_Command b ->
  createLeaf a cn d p s = createLeaf b cn d p s.
Proof.
  intros Hname Hcommand. unfold createLeaf, replaceCommandText.
  now rewrite Hname, Hcommand.
Qed.

(** C3: a command whose container has no pod template, compiled when the
    default template is not there either, ends in a nil dereference (the
    name is recorded as missing first). *)
Theorem createSteps_without_default_template (step : PipelineStep)
    (containerName dir prefixPath : string) (s : State) :
  nonEmpty (Step_Command step) = true ->
  PodTemplates (opts s) !! effectiveContainerName step containerName = None ->
  PodTemplates (opts s) !! defaultContainerName = None ->
  exists s',
    createSteps step containerName dir prefixPath s
    = (Panic nilDereference, s') /\
    MissingPodTemplates (opts s') !! effectiveContainerName step containerName
    = Some true.
Proof.
  intros Hcommand Habsent Hdefault. rewrite createSteps_from, Hcommand.
  pose proof (createLeaf_missing_template step (stepContainer step containerName)
                (stepDir (opts s) step dir) prefixPath (gitInfoChecked s)) as Hleaf.
  cbn zeta in Hleaf. rewrite gitInfoChecked_opts, Hdefault in Hleaf.
  destruct (Hleaf Habsent) as (s' & Heq & Hrec).
  exists s'. split; [|exact Hrec]. now apply bind_Panic.
Qed.

(** With the default template there, the command is compiled with the
    container of the default template and the name is recorded. *)
Lemma createSteps_default_template_used (step : PipelineStep)
    (containerName dir prefixPath : string) (s : State) (pod : Pod)
    (c : Container) (cs : list Container) :
  nonEmpty (Step_Command step) = true ->
  Step_Steps step = [] ->
  PodTemplates (opts s) !! effectiveContainerName step containerName = None ->
  PodTemplates (opts s) !! defaultContainerName = Some pod ->
  Pod_Containers pod = c :: cs ->
  exists c' volumes s',
    createSteps step containerName dir prefixPath s
    = (Ok ([c'], volumes), s') /\
    Container_Image c' =
      (if nonEmpty (CustomImage (opts s)) then CustomImage (opts s)
       else Container_Image c) /\
    MissingPodTemplates (opts s') !! effectiveContainerName step containerName
    = Some true.
Proof.
  intros Hcommand Hleafstep Habsent Hdefault Hpod.
  rewrite createSteps_from, Hcommand, Hleafstep.
  pose proof (createLeaf_missing_template step (stepContainer step containerName)
                (stepDir (opts s) step dir) prefixPath (gitInfoChecked s)) as Hleaf.
  cbn zeta in Hleaf. rewrite gitInfoChecked_opts, Hdefault, Hpod in Hleaf.
  destruct (Hleaf Habsent) as (c' & volumes & dir' & s' & Heq & Himage & Hrec).
  exists c', volumes, s'. split; [|split; assumption].
  now rewrite (bind_eq _ _ _ _ _ Heq).
Qed.

(** C4: the directory of a step that also names a container counts for
    nothing: the step compiles as if it had no directory. *)
Theorem createSteps_dir_ignored_with_container (step : PipelineStep)
    (containerName dir prefixPath : string) (s : State) :
  nonEmpty (Step_Container step) = true ->
  createSteps step containerName dir prefixPath s =
  createSteps (set_Step_Dir "" step) containerName dir prefixPath s.
Proof.
  intros Hcontainer. rewrite !createSteps_from.
  unfold stepContainer, stepDir.
  cbn [set_Step_Dir Step_Container Step_Dir Step_Command Step_Steps].
  rewrite Hcontainer. apply bind_cong.
  destruct (nonEmpty (Step_Command step)); [|reflexivity].
  now apply createLeaf_step.
Qed.

End PodTemplates.

(** No pod template at all: compiling a command panics. *)
Lemma createSteps_without_default_template_witness :
  exists s',
    createSteps (leafStep "" "mvn deploy") "maven" "/workspace/source" "build"
      (demoState defaultOptions)
    = (Panic nilDereference, s') /\
    MissingPodTemplates (opts s') !! "maven" = Some true.
Proof.
  exact (createSteps_without_default_template (leafStep "" "mvn deploy")
           "maven" "/workspace/source" "build" (demoState defaultOptions)
           eq_refl eq_refl eq_refl).
Defined.

(** The scenario of the spec: no template for maven, one for the default
    name; the step is compiled with the image of the default template. *)
Example createSteps_maven_missing :
  exists c' volumes s',
    createSteps (leafStep "" "mvn deploy") "maven" "/workspace/source" "build"
      (demoState (set_PodTemplates {[ "default" := defaultPod ]} defaultOptions))
    = (Ok ([c'], volumes), s') /\
    Container_Image c' = "builder:1" /\
    MissingPodTemplates (opts s') !! "maven" = Some true.
Proof.
  exact (createSteps_default_template_used (leafStep "" "mvn deploy")
           "maven" "/workspace/source" "build"
           (demoState (set_PodTemplates {[ "default" := defaultPod ]} defaultOptions))
           defaultPod (bareContainer "default" "builder:1") []
           eq_refl eq_refl eq_refl eq_refl eq_refl).
Qed.

Lemma createSteps_dir_ignored_with_container_witness :
  createSteps chartsStep "maven" "/workspace/source" "promote"
    (demoState mavenOptions)
  = createSteps (set_Step_Dir "" chartsStep) "maven" "/workspace/source"
      "promote" (demoState mavenOptions).
Proof. now apply createSteps_dir_ignored_with_container. Defined.

(** The step of [chartsStep] names a container and a directory; its child
    runs in the container named, but in the directory inherited from
    above, not in the one the step names. *)
Example createSteps_container_and_dir :
  Step_Container chartsStep = "default" /\
  Step_Dir chartsStep = "/workspace/source/charts" /\
  match fst (createSteps chartsStep "maven" "/workspace/source" "promote"
               (demoState mavenOptions)) with
  | Ok (steps, _) =>
      List.map (fun c => (Container_Name c, Container_Image c,
                          Container_WorkingDir c)) steps
  | _ => []
  end = [("promote-release", "builder:1", "/workspace/source")].
Proof. repeat split; vm_compute; reflexivity. Qed.

(** ** Applying, and not applying *)
Section Apply.

Context `{Platform}.

Lemma applyResources_NoApply (ns : string) (git : option GitRepository)
    (branch : string) (resources : list PipelineResource) (s : State) :
  NoApply (opts s) = true ->
  applyResources ns git branch (List.map Some resources) s =
  (Ok (resources, List.map resourceBinding resources), s).
Proof.
  intros Hno. induction resources as [|r rest IH]; [reflexivity|].
  cbn [List.map applyResources]. unfold bind at 1. cbn [getOpts].
  rewrite Hno. cbn [negb]. unfold bind at 1. cbn [ret].
  now rewrite (bind_eq _ _ _ _ _ IH).
Qed.

Lemma applyTasks_NoApply (ns : string) (tasks : list Task) (s : State) :
  NoApply (opts s) = true ->
  applyTasks ns tasks s = (Ok (List.map (set_Task_Namespace ns) tasks), s).
Proof.
  intros Hno. induction tasks as [|t rest IH]; [reflexivity|].
  cbn [List.map applyTasks]. unfold bind at 1. cbn [getOpts].
  rewrite Hno. cbn [negb]. unfold bind at 1. cbn [ret].
  now rewrite (bind_eq _ _ _ _ _ IH).
Qed.

Lemma wrapping_Ok {A} (msg : string) (m : M A) (s s' : State) (a : A) :
  wrapping msg m s = (Ok a, s') <-> m s = (Ok a, s').
Proof.
  unfold wrapping. destruct (m s) as [[x|e|e] s1]; split; congruence.
Qed.

Lemma onWorld_opts {A} (f : World -> result A * World) (s s' : State)
    (r : result A) :
  onWorld f s = (r, s') -> opts s' = opts s.
Proof.
  unfold onWorld. destruct (f (world s)) as [r' w]. now intros [= _ <-].
Qed.

Lemma applyResources_Ok (ns : string) (git : option GitRepository)
    (branch : string) (resources : list (option PipelineResource)) :
  forall (s s' : State) r,
    applyResources ns git branch resources s = (Ok r, s') ->
    resources = List.map Some (fst r) /\
    snd r = List.map resourceBinding (fst r) /\ opts s' = opts s.
Proof.
  induction resources as [|[resource|] rest IH]; intros s s' r Heq.
  - injection Heq as <- <-. auto.
  - cbn [applyResources] in Heq.
    apply bind_Ok in Heq. destruct Heq as (o & s1 & [= <- <-] & Heq).
    apply bind_Ok in Heq. destruct Heq as ([] & s2 & Hup & Heq).
    apply bind_Ok in Heq. destruct Heq as ([applied bindings] & s3 & Hrest & Heq).
    injection Heq as <- <-. apply IH in Hrest.
    destruct Hrest as (-> & Hb & Ho). cbn [fst snd] in *. subst bindings.
    repeat split. rewrite Ho. clear -Hup.
    destruct (negb (NoApply (opts s))); [|now injection Hup as <-].
    apply bind_Ok in Hup. destruct Hup as (a & s1 & Hw & Hlog).
    apply wrapping_Ok, onWorld_opts in Hw.
    destruct (String.eqb (Resource_Type resource) PipelineResourceTypeGit);
      [destruct git; [|discriminate]|]; injection Hlog as <-; exact Hw.
  - discriminate.
Qed.

Lemma applyTasks_Ok (ns : string) (tasks : list Task) :
  forall (s s' : State) r,
    applyTasks ns tasks s = (Ok r, s') ->
    r = List.map (set_Task_Namespace ns) tasks /\ opts s' = opts s.
Proof.
  induction tasks as [|task rest IH]; intros s s' r Heq.
  - injection Heq as <- <-. auto.
  - cbn [applyTasks] in Heq.
    apply bind_Ok in Heq. destruct Heq as (o & s1 & [= <- <-] & Heq).
    apply bind_Ok in Heq. destruct Heq as ([] & s2 & Hup & Heq).
    apply bind_Ok in Heq. destruct Heq as (done & s3 & Hrest & Heq).
    injection Heq as <- <-. apply IH in Hrest. destruct Hrest as (-> & Ho).
    split; [reflexivity|]. rewrite Ho. clear -Hup.
    destruct (negb (NoApply (opts s))); [|now injection Hup as <-].
    apply bind_Ok in Hup. destruct Hup as (a & s1 & Hw & Hlog).
    apply wrapping_Ok, onWorld_opts in Hw. injection Hlog as <-. exact Hw.
Qed.


Lemma readWorld_Ok {A} (f : World -> result A) (s s' : State) (a : A) :
  readWorld f s = (Ok a, s') <-> f (world s) = Ok a /\ s' = s.
Proof. unfold readWorld. split; [intros [= -> <-]; auto|intros [-> ->]; auto]. Qed.

Lemma log_Ok (e : LogEntry) (s s' : State) (u : unit) :
  log e s = (Ok u, s') -> opts s' = opts s /\ world s' = world s.
Proof. now intros [= _ <-]. Qed.

Lemma onWorldErr_opts (f : World -> option string * World) (s s' : State)
    (r : result unit) :
  onWorldErr f s = (r, s') -> opts s' = opts s.
Proof.
  unfold onWorldErr. destruct (f (world s)) as [r' w]. now intros [= _ <-].
Qed.

(** What a successful [applyPipeline] leaves in [Results]. *)
Lemma applyPipeline_Ok (pipeline : Pipeline) (tasks : list Task)
    (resources : list (option PipelineResource))
    (structure : option PipelineStructure) (git : option GitRepository)
    (branch : string) (s s' : State) :
  applyPipeline pipeline tasks resources structure git branch s = (Ok tt, s') ->
  exists ns rs pipeline',
    KubeClientAndDevNamespace (world s) = Ok ns /\
    resources = List.map Some rs /\
    (if NoApply (opts s) then pipeline' = defaultPipeline ns pipeline
     else exists w w',
            CreateOrUpdatePipeline ns (defaultPipeline ns pipeline)
              (labels (opts s)) w = (Ok pipeline', w')) /\
    opts s' =
      set_Results
        (appliedResults (opts s) ns pipeline' tasks rs
           (if NoApply (opts s) then structure
            else option_map
                   (stampStructure pipeline'
                      (newPipelineRun (opts s) pipeline'
                         (List.map resourceBinding rs)))
                   structure))
        (opts s).
Proof.
  intros Heq. unfold applyPipeline in Heq.
  apply bind_Ok in Heq. destruct Heq as (ns & s1 & Hns & Heq).
  apply readWorld_Ok in Hns. destruct Hns as [Hns ->].
  apply bind_Ok in Heq. destruct Heq as ([] & s1 & Htk & Heq).
  apply readWorld_Ok in Htk. destruct Htk as [_ ->].
  apply bind_Ok in Heq. destruct Heq as ([rs bindings] & s2 & Hres & Heq).
  apply applyResources_Ok in Hres. cbn [fst snd] in Hres.
  destruct Hres as (-> & -> & Ho2).
  apply bind_Ok in Heq. destruct Heq as (tasks' & s3 & Htasks & Heq).
  apply applyTasks_Ok in Htasks. destruct Htasks as (-> & Ho3).
  apply bind_Ok in Heq. destruct Heq as (o & s4 & [= <- <-] & Heq).
  assert (Ho : opts s3 = opts s) by congruence. rewrite Ho in Heq.
  apply bind_Ok in Heq. destruct Heq as (pipeline' & s4 & Hpipe & Heq).
  apply bind_Ok in Heq. destruct Heq as (structure' & s5 & Hstruct & Heq).
  injection Heq as <-. cbn [opts].
  exists ns, rs, pipeline'. split; [exact Hns|]. split; [reflexivity|].
  destruct (NoApply (opts s)) eqn:Hno; cbn [negb] in Hpipe, Hstruct.
  - injection Hpipe as <- <-. injection Hstruct as <- <-.
    split; [reflexivity|]. rewrite Ho. reflexivity.
  - apply bind_Ok in Hpipe. destruct Hpipe as (p' & s6 & Hup & Hlog).
    apply bind_Ok in Hlog. destruct Hlog as ([] & s7 & Hlog & [= -> <-]).
    apply log_Ok in Hlog. destruct Hlog as [Ho7 _].
    apply wrapping_Ok in Hup. pose proof (onWorld_opts _ _ _ _ Hup) as Ho6.
    assert (Ho4 : opts s7 = opts s) by congruence.
    split.
    { unfold onWorld in Hup.
      destruct (CreateOrUpdatePipeline ns (defaultPipeline ns pipeline)
                  (labels (opts s)) (world s3)) as [r w'] eqn:Ec.
      injection Hup as -> _. eauto. }
    apply bind_Ok in Hstruct. destruct Hstruct as (run' & s8 & Hrun & Hstruct).
    apply wrapping_Ok in Hrun. pose proof (onWorld_opts _ _ _ _ Hrun) as Ho8.
    apply bind_Ok in Hstruct. destruct Hstruct as ([] & s9 & Hlog & Hstruct).
    apply log_Ok in Hlog. destruct Hlog as [Ho9 _].
    assert (Ho9' : opts s9 = opts s) by congruence.
    destruct structure as [structure|].
    + apply bind_Ok in Hstruct. destruct Hstruct as ([] & s10 & Hx & Hstruct).
      apply readWorld_Ok in Hx. destruct Hx as [_ ->].
      apply bind_Ok in Hstruct. destruct Hstruct as ([] & s10 & Hx & Hstruct).
      apply onWorldErr_opts in Hx.
      apply bind_Ok in Hstruct. destruct Hstruct as ([] & s11 & Hy & Hstruct).
      apply readWorld_Ok in Hy. destruct Hy as [_ ->].
      apply bind_Ok in Hstruct. destruct Hstruct as (created & s11 & Hz & Hstruct).
      apply wrapping_Ok, onWorld_opts in Hz.
      apply bind_Ok in Hstruct. destruct Hstruct as ([] & s12 & Hlog & [= <- <-]).
      apply log_Ok in Hlog. destruct Hlog as [Ho12 _].
      cbn [option_map]. replace (opts s12) with (opts s) by congruence.
      reflexivity.
    + injection Hstruct as <- <-. cbn [option_map]. rewrite Ho9'. reflexivity.
Qed.


(** C9, amended.  With the clients of the cluster at hand: when [NoApply]
    is set, [applyPipeline] changes nothing in the world (and logs
    nothing) and fills [Results] with the tasks in the namespace, the
    resources, the pipeline as defaulted locally, the run made for it and
    the structure as it was given.  An apply that succeeds leaves the
    same tasks and resources, but the pipeline the cluster returned, the
    run made for that one, and the structure stamped with the name of the
    run and the owner. *)
Theorem applyPipeline_results (pipeline : Pipeline) (tasks : list Task)
    (resources : list PipelineResource)
    (structure : option PipelineStructure) (git : option GitRepository)
    (branch ns : string) (s : State) :
  KubeClientAndDevNamespace (world s) = Ok ns ->
  TektonClient (world s) = Ok tt ->
  (NoApply (opts s) = true ->
   applyPipeline pipeline tasks (List.map Some resources) structure git branch s
   = (Ok tt,
      mkState
        (set_Results
           (appliedResults (opts s) ns (defaultPipeline ns pipeline) tasks
              resources structure)
           (opts s))
        (logs s) (world s))) /\
  (NoApply (opts s) = false ->
   forall s',
     applyPipeline pipeline tasks (List.map Some resources) structure git
       branch s = (Ok tt, s') ->
     exists pipeline' w w',
       CreateOrUpdatePipeline ns (defaultPipeline ns pipeline)
         (labels (opts s)) w = (Ok pipeline', w') /\
       opts s' =
         set_Results
           (appliedResults (opts s) ns pipeline' tasks resources
              (option_map
                 (stampStructure pipeline'
                    (newPipelineRun (opts s) pipeline'
                       (List.map resourceBinding resources)))
                 structure))
           (opts s)).
Proof.
  intros Hns Htk. split.
  - intros Hno. unfold applyPipeline.
    unfold bind at 1. unfold readWorld at 1. rewrite Hns.
    unfold bind at 1. unfold readWorld at 1. rewrite Htk.
    rewrite (bind_eq _ _ _ _ _ (applyResources_NoApply ns git branch resources s Hno)).
    rewrite (bind_eq _ _ _ _ _ (applyTasks_NoApply ns tasks s Hno)).
    unfold bind at 1. cbn [getOpts]. rewrite Hno. cbn [negb].
    unfold bind at 1. cbn [ret]. unfold bind at 1. cbn [ret].
    reflexivity.
  - intros Hno s' Heq. apply applyPipeline_Ok in Heq.
    destruct Heq as (ns' & rs & pipeline' & Hns' & Hrs & Hpipe & Hopts).
    rewrite Hno in Hpipe, Hopts. rewrite Hns in Hns'. injection Hns' as <-.
    assert (Hrs' : rs = resources).
    { clear -Hrs. revert rs Hrs. induction resources as [|r rest IH];
        intros [|r' rs] [=]; [reflexivity|]. subst r'. f_equal. now apply IH. }
    subst rs. destruct Hpipe as (w & w' & Hc). eauto.
Qed.

End Apply.

Lemma applyPipeline_results_witness :
  appliedWith (set_NoApply true mavenOptions)
  = (Ok tt,
     mkState
       (set_Results
          (appliedResults (set_NoApply true mavenOptions) "jx"
             (defaultPipeline "jx" demoPipeline) [demoTask] [demoResource]
             (Some demoStructure))
          (set_NoApply true mavenOptions))
       [] emptyWorld).
Proof.
  exact (proj1 (applyPipeline_results demoPipeline [demoTask] [demoResource]
                  (Some demoStructure) (Some acmeRepo) "master" "jx"
                  (demoState (set_NoApply true mavenOptions)) eq_refl eq_refl)
           eq_refl).
Defined.

(** As the spec states it the property fails: both runs succeed, but
    without applying
    the structure in [Results] is the one handed in, the pipeline has no
    identifier and the run names no owner identifier, whereas after an
    apply the structure is stamped with the run and the owner and the
    pipeline is the one of the cluster. *)
Lemma applyPipeline_NoApply_differs :
  fst (appliedWith (set_NoApply true mavenOptions)) = Ok tt /\
  fst (appliedWith mavenOptions) = Ok tt /\
  journal (world (snd (appliedWith (set_NoApply true mavenOptions)))) = [] /\
  Results_Structure (Results (opts (snd (appliedWith (set_NoApply true mavenOptions)))))
  = Some demoStructure /\
  Results_Structure (Results (opts (snd (appliedWith mavenOptions))))
  = Some (mkStructure "acme-myapp-master"
            [mkOwnerReference "tekton.dev/v1alpha1" "Pipeline"
               "acme-myapp-master" "uid-1"]
            (Some "acme-myapp-master") (Some "acme-myapp-master") "stages") /\
  option_map Pipeline_UID
    (Results_Pipeline (Results (opts (snd (appliedWith (set_NoApply true mavenOptions))))))
  = Some "" /\
  option_map Pipeline_UID
    (Results_Pipeline (Results (opts (snd (appliedWith mavenOptions)))))
  = Some "uid-1".
Proof. repeat split; vm_compute; reflexivity. Qed.

(** ** What leaves the receiver alone *)
Section KeepsOpts.

Context `{Platform}.

Lemma keepsOpts_ret {A} (a : A) : keepsOpts (ret a).
Proof. now intros s r s' [= _ <-]. Qed.

Lemma keepsOpts_fail {A} (msg : string) : keepsOpts (@fail _ A msg).
Proof. now intros s r s' [= _ <-]. Qed.

Lemma keepsOpts_log (e : LogEntry) : keepsOpts (log e).
Proof. now intros s r s' [= _ <-]. Qed.

Lemma keepsOpts_onWorld {A} (f : World -> result A * World) :
  keepsOpts (onWorld f).
Proof. intros s r s'. apply onWorld_opts. Qed.

Lemma keepsOpts_onWorldErr (f : World -> option string * World) :
  keepsOpts (onWorldErr f).
Proof. intros s r s'. apply onWorldErr_opts. Qed.

Lemma keepsOpts_pure {A} (r : result A) : keepsOpts (fun s => (r, s)).
Proof. now intros s r' s' [= _ <-]. Qed.

Lemma keepsOpts_bind {A B} (m : M A) (k : A -> M B) :
  keepsOpts m -> (forall a, keepsOpts (k a)) -> keepsOpts (bind m k).
Proof.
  intros Hm Hk s r s'. unfold bind.
  destruct (m s) as [[a|e|e] s1] eqn:E; apply Hm in E.
  - intros Hr. apply Hk in Hr. congruence.
  - now intros [= _ <-].
  - now intros [= _ <-].
Qed.

Lemma keepsOpts_wrapping {A} (msg : string) (m : M A) :
  keepsOpts m -> keepsOpts (wrapping msg m).
Proof.
  intros Hm s r s'. unfold wrapping.
  destruct (m s) as [[a|e|e] s1] eqn:E; apply Hm in E; now intros [= _ <-].
Qed.

Lemma keepsOpts_writeDoc (doc : YamlDoc) (kind fileName : string) :
  keepsOpts (writeDoc doc kind fileName).
Proof.
  unfold writeDoc.
  repeat (apply keepsOpts_bind; [|intros ?]);
    auto using keepsOpts_wrapping, keepsOpts_pure, keepsOpts_onWorldErr,
      keepsOpts_log.
Qed.

Lemma keepsOpts_writeDocs {A} (mk : A -> YamlDoc) (kind folder prefix : string)
    (i : Z) (xs : list A) :
  keepsOpts (writeDocs mk kind folder prefix i xs).
Proof.
  revert i. induction xs as [|x rest IH]; intros i; cbn [writeDocs].
  - apply keepsOpts_ret.
  - apply keepsOpts_bind; [apply keepsOpts_writeDoc|intros _; apply IH].
Qed.

Lemma keepsOpts_writeOutput (folder : string) (pipeline : option Pipeline)
    (tasks : list Task) (pipelineRun : option PipelineRun)
    (resources : list PipelineResource)
    (structure : option PipelineStructure) :
  keepsOpts (writeOutput folder pipeline tasks pipelineRun resources structure).
Proof.
  unfold writeOutput.
  apply keepsOpts_bind.
  { intros s r s'. destruct (Mkdir folder (world s)) as [[e|] w];
      [destruct (os_IsExist e)|]; now intros [= _ <-]. }
  intros _. apply keepsOpts_bind; [apply keepsOpts_writeDoc|intros _].
  apply keepsOpts_bind; [apply keepsOpts_writeDoc|intros _].
  apply keepsOpts_bind;
    [destruct structure; [apply keepsOpts_writeDoc|apply keepsOpts_ret]|intros _].
  apply keepsOpts_bind; [apply keepsOpts_writeDocs|intros _].
  apply keepsOpts_writeDocs.
Qed.

Lemma keepsOpts_combineLabels_loop (customLabels : list string)
    (labels : gmap string string) :
  keepsOpts (combineLabels_loop customLabels labels).
Proof.
  revert labels. induction customLabels as [|l rest IH]; intros labels;
    cbn [combineLabels_loop]; [apply keepsOpts_ret|].
  destruct (GoStrings.Split l "=") as [|k [|v [|x xs]]];
    try apply keepsOpts_fail.
  apply keepsOpts_bind; [apply keepsOpts_log|intros _; apply IH].
Qed.

(** [setBuildValues] changes the labels of the receiver only. *)
Lemma setBuildValues_opts (fromYaml : bool) (s s' : State) (r : result unit) :
  setBuildValues fromYaml s = (r, s') ->
  opts s' = set_labels (labels (opts s')) (opts s).
Proof.
  unfold setBuildValues, combineLabels. unfold bind at 1. cbn [getOpts].
  unfold bind at 1. cbn [getOpts]. unfold bind at 1.
  destruct (combineLabels_loop _ _ s) as [[ls|e|e] s1] eqn:E;
    apply keepsOpts_combineLabels_loop in E.
  - intros [= _ <-]. cbn [opts]. rewrite E. now destruct (opts s).
  - intros [= _ <-]. rewrite E. now destruct (opts s).
  - intros [= _ <-]. rewrite E. now destruct (opts s).
Qed.

End KeepsOpts.

(** ** The credentials step of a release *)
Section Credentials.

Context `{Platform}.

(** The container a command compiles to. *)
Lemma createLeaf_Ok (step : PipelineStep) (cn d p : string) (s s' : State)
    (cs : list Container) (vs : list Volume) (cn' d' : string) :
  createLeaf step cn d p s = (Ok (cs, vs, cn', d'), s') ->
  exists c,
    cs = [c] /\
    Container_Name c =
      (if nonEmpty p then p +:+ "-" else p) +:+
      (if String.eqb (Step_Name step) ""
       then "step" +:+ GoStrings.Itoa (wrap64 (1 + stepCounter (opts s')))
       else Step_Name step) /\
    Container_Command c = ["/bin/sh"] /\
    Container_Args c = ["-c"; replaceCommandText step].
Proof.
  intros Heq. destruct s as [o l w].
  unfold createLeaf, bind, ret, getOpts, modifyOpts, log, fail, panic in Heq.
  cbn [opts logs world] in *.
  repeat case_match; simplify_eq; eexists; (split; [reflexivity|]);
    cbn [opts]; repeat split;
    match goal with
    | Hm : modifyVolumes _ _ = _ |- _ =>
        unfold modifyVolumes in Hm; injection Hm as <- _
    end;
    repeat case_match; reflexivity.
Qed.

Lemma createSteps_credentials (cn d : string) (s s' : State)
    (cs : list Container) (vs : list Volume) :
  createSteps credentialsStep cn d "setup" s = (Ok (cs, vs), s') ->
  exists c,
    cs = [c] /\
    Container_Name c = "setup-jx-git-credentials" /\
    Container_Command c = ["/bin/sh"] /\
    Container_Args c = ["-c"; "jx step git credentials"].
Proof.
  rewrite createSteps_from. cbn [credentialsStep Step_Command Step_Steps nonEmpty
    String.eqb Ascii.eqb Bool.eqb negb].
  intros Heq. apply bind_Ok in Heq.
  destruct Heq as ([[[steps volumes] cn'] d'] & s1 & Hleaf & Hret).
  injection Hret as <- _ _. apply createLeaf_Ok in Hleaf.
  destruct Hleaf as (c & -> & Hname & Hcommand & Hargs).
  exists c. repeat split; assumption.
Qed.

Lemma createLifecycleSteps_prefix (stage : string) (ss : list PipelineStep)
    (cn d : string) :
  forall steps volumes s steps' volumes' s',
    createLifecycleSteps stage ss cn d steps volumes s
    = (Ok (steps', volumes'), s') ->
    exists more, steps' = steps ++ more.
Proof.
  induction ss as [|step rest IH]; intros steps volumes s steps' volumes' s' Heq.
  - injection Heq as <- _ _. exists []. now rewrite app_nil_r.
  - cbn [createLifecycleSteps] in Heq. apply bind_Ok in Heq.
    destruct Heq as ([cs v] & s1 & _ & Heq). apply IH in Heq.
    destruct Heq as [more ->]. exists (cs ++ more). now rewrite app_assoc.
Qed.

Lemma createAllSteps_prefix (all : list NamedLifecycle) (cn d : string) :
  forall steps volumes s steps' volumes' s',
    createAllSteps all cn d steps volumes s = (Ok (steps', volumes'), s') ->
    exists more, steps' = steps ++ more.
Proof.
  induction all as [|n rest IH]; intros steps volumes s steps' volumes' s' Heq.
  - injection Heq as <- _ _. exists []. now rewrite app_nil_r.
  - cbn [createAllSteps] in Heq. apply bind_Ok in Heq.
    destruct Heq as (o & s1 & [= <- <-] & Heq).
    destruct (Named_Lifecycle n) as [l|]; [|now apply IH in Heq].
    destruct (negb (NoSetVersion (opts s)) && String.eqb (Named_Name n) "setversion");
      [now apply IH in Heq|].
    apply bind_Ok in Heq. destruct Heq as ([steps1 volumes1] & s2 & Hstage & Heq).
    apply createLifecycleSteps_prefix in Hstage. destruct Hstage as [more1 ->].
    apply IH in Heq. destruct Heq as [more ->].
    exists (more1 ++ more). now rewrite app_assoc.
Qed.

Lemma createAllSteps_cons (n : NamedLifecycle) (rest : list NamedLifecycle)
    (cn d : string) (steps : list Container) (volumes : list Volume)
    (s : State) :
  createAllSteps (n :: rest) cn d steps volumes s =
  (o <- getOpts ;;
   match Named_Lifecycle n with
   | None => createAllSteps rest cn d steps volumes
   | Some l =>
       if negb (NoSetVersion o) && String.eqb (Named_Name n) "setversion"
       then createAllSteps rest cn d steps volumes
       else
         r <- createLifecycleSteps (Named_Name n) (Lifecycle_Steps l)
                cn d steps volumes ;;
         let '(steps, volumes) := r in
         createAllSteps rest cn d steps volumes
   end) s.
Proof. reflexivity. Qed.

(** With the credentials step first in the setup stage, the compiled
    list starts with the container made of it. *)
Lemma createAllSteps_credentials
    (lifecycles : PipelineLifecycles ParsedPipeline) (cn d : string)
    (s s' : State) (steps : list Container) (volumes : list Volume) :
  createAllSteps (All (addCredentialsStep lifecycles)) cn d [] [] s
  = (Ok (steps, volumes), s') ->
  exists c rest,
    steps = c :: rest /\
    Container_Name c = "setup-jx-git-credentials" /\
    Container_Command c = ["/bin/sh"] /\
    Container_Args c = ["-c"; "jx step git credentials"].
Proof.
  unfold All, addCredentialsStep.
  cbn [Setup set_Setup SetVersion PreBuild Build PostBuild Promote].
  rewrite createAllSteps_cons.
  cbn [Named_Lifecycle Named_Name Lifecycle_Steps app].
  intros Heq. apply bind_Ok in Heq. destruct Heq as (o & s1 & [= <- <-] & Heq).
  change (String.eqb "setup" "setversion") with false in Heq.
  rewrite andb_false_r in Heq.
  apply bind_Ok in Heq. destruct Heq as ([steps1 volumes1] & s2 & Hstage & Heq).
  cbn [createLifecycleSteps] in Hstage. apply bind_Ok in Hstage.
  destruct Hstage as ([cs v] & s3 & Hcred & Hstage).
  apply createSteps_credentials in Hcred.
  destruct Hcred as (c & -> & Hname & Hcommand & Hargs).
  apply createLifecycleSteps_prefix in Hstage. destruct Hstage as [more1 ->].
  apply createAllSteps_prefix in Heq. destruct Heq as [more ->].
  exists c, (more1 ++ more). repeat split; assumption.
Qed.

Lemma createAllSteps_frame (all : list NamedLifecycle) (cn d : string) :
  forall steps volumes s r s',
    createAllSteps all cn d steps volumes s = (r, s') -> compileFrame s s'.
Proof.
  induction all as [|n rest IH]; intros steps volumes s r s' Heq.
  - injection Heq as _ <-. apply compileFrame_refl.
  - rewrite createAllSteps_cons in Heq. unfold bind at 1 in Heq.
    cbn [getOpts] in Heq.
    destruct (Named_Lifecycle n) as [l|]; [|now apply IH in Heq].
    destruct (negb (NoSetVersion (opts s)) && String.eqb (Named_Name n) "setversion");
      [now apply IH in Heq|].
    unfold bind in Heq.
    destruct (createLifecycleSteps (Named_Name n) (Lifecycle_Steps l) cn d steps
                volumes s) as [[[steps1 volumes1]|e|e] s1] eqn:E;
      apply createLifecycleSteps_frame in E.
    + apply IH in Heq. now apply compileFrame_trans with (s2 := s1).
    + now injection Heq as _ <-.
    + now injection Heq as _ <-.
Qed.

Lemma sameButCounters_ViewSteps (o o' : StepCreateTaskOptions) :
  sameButCounters o o' -> ViewSteps o' = ViewSteps o.
Proof. intros ->. reflexivity. Qed.

(** A build-pack generation that succeeds and applies leaves in
    [Results] the one task made of the compiled steps. *)
Lemma generateFromBuildPack_Ok (pipelineConfig : PipelineConfig ParsedPipeline)
    (lifecycles : PipelineLifecycles ParsedPipeline) (taskInputs : Inputs)
    (s s' : State) :
  ViewSteps (opts s) = false ->
  generateFromBuildPack pipelineConfig lifecycles taskInputs s = (Ok tt, s') ->
  exists container dir steps volumes s1 task,
    createAllSteps (All lifecycles) container dir [] [] s
    = (Ok (steps, volumes), s1) /\
    Results_Tasks (Results (opts s')) = [task] /\
    Task_Steps task = steps.
Proof.
  intros Hview Heq. unfold generateFromBuildPack in Heq.
  apply bind_Ok in Heq. destruct Heq as (o & s0 & [= <- <-] & Heq).
  apply bind_Ok in Heq. destruct Heq as ([steps volumes] & s1 & Hsteps & Heq).
  apply bind_Ok in Heq. destruct Heq as (o1 & s2 & [= <- <-] & Heq).
  pose proof (createAllSteps_frame _ _ _ _ _ _ _ _ Hsteps) as [_ Hframe].
  rewrite (sameButCounters_ViewSteps _ _ Hframe), Hview in Heq.
  apply bind_Ok in Heq. destruct Heq as ([] & s3 & Happly & Heq).
  apply wrapping_Ok in Happly. unfold applyTask in Happly.
  destruct (gitInfo (opts s1)) as [git|]; [|discriminate].
  apply bind_Ok in Happly. destruct Happly as (o2 & s4 & [= <- <-] & Happly).
  apply applyPipeline_Ok in Happly.
  destruct Happly as (ns & rs & pipeline' & _ & _ & _ & Hopts).
  assert (Hs' : opts s' = opts s3).
  { destruct (nonEmpty (OutDir (opts s1))).
    - apply bind_Ok in Heq. destruct Heq as (o3 & s5 & [= <- <-] & Heq).
      apply keepsOpts_wrapping in Heq; [exact Heq|apply keepsOpts_writeOutput].
    - now injection Heq as <-. }
  do 6 eexists. split; [exact Hsteps|]. rewrite Hs', Hopts.
  cbn [Results set_Results appliedResults Results_Tasks List.map].
  split; reflexivity.
Qed.


(** C10, amended.  For the kind release, given release lifecycles,
    [generateTask] makes the setup lifecycle if there is none and puts
    the step [jx-git-credentials] before its steps, then generates the
    pipeline of these lifecycles; on the build-pack path (the lifecycles
    carry no declarative pipeline), a generation that succeeds and
    applies leaves one task, whose first step is the credentials step;
    on the declarative path the generation is what it is without the
    step.  For the kinds pullrequest and feature the lifecycles of the
    configuration are used as they are. *)
Theorem release_credentials_step (name : string)
    (pipelineConfig : PipelineConfig ParsedPipeline) (s : State) :
  (forall lifecycles,
     PipelineKind (opts s) = PipelineKindRelease ->
     Release (Config_Pipelines pipelineConfig) = Some lifecycles ->
     let lifecycles' := addCredentialsStep lifecycles in
     let pipelineConfig' := set_Release (Some lifecycles') pipelineConfig in
     Setup lifecycles' =
       Some (mkLifecycle
               (credentialsStep ::
                match Setup lifecycles with
                | Some l => Lifecycle_Steps l
                | None => []
                end)) /\
     generateTask name pipelineConfig s =
       (generatePipeline name pipelineConfig' (Some lifecycles')
          PipelineKindRelease ;; ret pipelineConfig') s /\
     (Lifecycles_Pipeline lifecycles = None ->
      ViewSteps (opts s) = false ->
      forall cfg s',
        generateTask name pipelineConfig s = (Ok cfg, s') ->
        exists task c rest,
          Results_Tasks (Results (opts s')) = [task] /\
          Task_Steps task = c :: rest /\
          Container_Name c = "setup-jx-git-credentials" /\
          Container_Command c = ["/bin/sh"] /\
          Container_Args c = ["-c"; "jx step git credentials"]) /\
     (forall p,
        Lifecycles_Pipeline lifecycles = Some p ->
        generatePipeline name pipelineConfig' (Some lifecycles')
          PipelineKindRelease s =
        generatePipeline name pipelineConfig (Some lifecycles)
          PipelineKindRelease s)) /\
  (PipelineKind (opts s) = PipelineKindPullRequest ->
   generateTask name pipelineConfig s =
     (generatePipeline name pipelineConfig
        (PullRequest (Config_Pipelines pipelineConfig))
        PipelineKindPullRequest ;; ret pipelineConfig) s) /\
  (PipelineKind (opts s) = PipelineKindFeature ->
   generateTask name pipelineConfig s =
     (generatePipeline name pipelineConfig
        (Feature (Config_Pipelines pipelineConfig))
        PipelineKindFeature ;; ret pipelineConfig) s).
Proof.
  split; [|split].
  - intros lifecycles Hkind Hrelease lifecycles' pipelineConfig'.
    assert (Hgen : generateTask name pipelineConfig s =
              (generatePipeline name pipelineConfig' (Some lifecycles')
                 PipelineKindRelease ;; ret pipelineConfig') s).
    { unfold generateTask. unfold bind at 1. cbn [getOpts].
      rewrite Hkind, Hrelease. reflexivity. }
    split; [|split; [exact Hgen|split]].
    { unfold lifecycles', addCredentialsStep. cbn [Setup set_Setup app].
      now destruct (Setup lifecycles). }
    2: { intros p Hp. unfold generatePipeline, lifecycles', addCredentialsStep.
         cbn [Lifecycles_Pipeline set_Setup]. now rewrite Hp. }
    intros Hyaml Hview cfg s' Heq. rewrite Hgen in Heq.
    apply bind_Ok in Heq. destruct Heq as ([] & s1 & Heq & [= _ <-]).
    unfold generatePipeline in Heq.
    apply bind_Ok in Heq. destruct Heq as ([] & sA & Hlabels & Heq).
    apply setBuildValues_opts in Hlabels.
    apply bind_Ok in Heq. destruct Heq as (o & sB & [= <- <-] & Heq).
    replace (Lifecycles_Pipeline lifecycles') with (@None ParsedPipeline) in Heq
      by (symmetry; exact Hyaml).
    apply generateFromBuildPack_Ok in Heq.
    + destruct Heq as (container & dir & steps & volumes & s2 & task
                       & Hsteps & Htasks & Htask).
      apply createAllSteps_credentials in Hsteps.
      destruct Hsteps as (c & rest & -> & Hname & Hcommand & Hargs).
      exists task, c, rest. repeat split; assumption.
    + rewrite Hlabels. exact Hview.
  - intros Hkind. unfold generateTask. unfold bind at 1. cbn [getOpts].
    rewrite Hkind. reflexivity.
  - intros Hkind. unfold generateTask. unfold bind at 1. cbn [getOpts].
    rewrite Hkind. reflexivity.
Qed.

End Credentials.

Lemma release_credentials_step_witness :
  exists task c rest,
    Results_Tasks
      (Results (opts (snd (generateTask "maven" mavenConfig
                             (demoState mavenOptions))))) = [task] /\
    Task_Steps task = c :: rest /\
    Container_Name c = "setup-jx-git-credentials" /\
    Container_Command c = ["/bin/sh"] /\
    Container_Args c = ["-c"; "jx step git credentials"].
Proof.
  refine (proj1 (proj2 (proj2 (proj1 (release_credentials_step "maven"
                                        mavenConfig (demoState mavenOptions))
                                 mavenLifecycles eq_refl eq_refl)))
            eq_refl eq_refl
            (set_Release (Some (addCredentialsStep mavenLifecycles)) mavenConfig)
            _ _).
  vm_compute. reflexivity.
Defined.

(** As the spec states it the property fails on the declarative path:
    the credentials
    step is put before the setup steps, but the tasks are those of the
    declarative pipeline and the step is in none of them. *)
Lemma release_task_without_credentials :
  PipelineKind mavenOptions = "release" /\
  (exists cfg release setup,
     fst (generateTask "maven" yamlConfig (demoState mavenOptions)) = Ok cfg /\
     Release (Config_Pipelines cfg) = Some release /\
     Setup release = Some setup /\
     List.map Step_Name (Lifecycle_Steps setup) = ["jx-git-credentials"; "init"]) /\
  resultStepNames (generateTask "maven" yamlConfig (demoState mavenOptions))
  = [["build"]].
Proof.
  split; [reflexivity|]. split; [|vm_compute; reflexivity].
  do 3 eexists. repeat split; vm_compute; reflexivity.
Qed.

(** * Further properties of the code *)

(** ** The order in which version steps run *)
Section VersionOrder.

Context `{Platform}.

Lemma bind_assoc {A B C} (m : M A) (k : A -> M B) (k' : B -> M C) (s : State) :
  bind (bind m k) k' s = bind m (fun a => bind (k a) k') s.
Proof. unfold bind. now destruct (m s) as [[a|e|e] s1]. Qed.

Lemma bind_ret_l {A B} (a : A) (k : A -> M B) (s : State) :
  bind (ret a) k s = k a s.
Proof. reflexivity. Qed.

Lemma bind_ret_tt (m : M unit) (s : State) : bind m (fun _ => ret tt) s = m s.
Proof. unfold bind, ret. now destruct (m s) as [[[]|e|e] s1]. Qed.

Lemma versionCommands_eq (step : PipelineStep) :
  versionCommands step =
  flat_map versionCommands (Step_Steps step)
  ++ (if runsCommand step then [step] else []).
Proof.
  destruct step as [name command sdir scontainer when children].
  reflexivity.
Qed.

Lemma runStepCommands_app (a b : list PipelineStep) (s : State) :
  runStepCommands (a ++ b) s = (runStepCommands a ;; runStepCommands b) s.
Proof.
  revert s. induction a as [|x a IH]; intros s; [reflexivity|].
  cbn [app runStepCommands]. rewrite bind_assoc. apply bind_ext.
  intros _ s1. apply IH.
Qed.

Lemma invokeSteps_flat_of (steps : list PipelineStep) :
  Forall (fun step => forall s,
            invokeStep step s = runStepCommands (versionCommands step) s) steps ->
  forall s, invokeSteps steps s
            = runStepCommands (flat_map versionCommands steps) s.
Proof.
  induction 1 as [|step rest Hstep _ IH]; intros s; [reflexivity|].
  cbn [invokeSteps flat_map]. rewrite runStepCommands_app.
  unfold bind. rewrite Hstep.
  destruct (runStepCommands (versionCommands step) s) as [[[]|e|e] s1];
    [apply IH|reflexivity..].
Qed.

Lemma invokeStep_flat (step : PipelineStep) :
  forall s, invokeStep step s = runStepCommands (versionCommands step) s.
Proof.
  induction step as [name command sdir scontainer when children IH]
    using PipelineStep_tree_ind.
  intros s. rewrite invokeStep_eq, versionCommands_eq, runStepCommands_app.
  cbn [Step_Steps Step_When Step_Command].
  unfold bind. rewrite (invokeSteps_flat_of _ IH).
  destruct (runStepCommands (flat_map versionCommands children) s)
    as [[[]|e|e] s1]; [|reflexivity..].
  unfold runsCommand. cbn [Step_When Step_Command].
  destruct (String.eqb (GoStrings.TrimSpace when) "!prow" || String.eqb command "");
    cbn [negb runStepCommands]; [reflexivity|].
  now rewrite bind_ret_tt.
Qed.

(** X1.  [invokeSteps] runs the commands of a list of step trees in
    post-order: the commands of the children of a step come before the
    command of the step, and they run whether or not the step itself is
    excluded by [!prow] or has no command; the run stops at the first
    command that fails. *)
Theorem invokeSteps_post_order (steps : list PipelineStep) (s : State) :
  invokeSteps steps s = runStepCommands (flat_map versionCommands steps) s.
Proof.
  apply invokeSteps_flat_of. apply Forall_forall. intros step _.
  apply invokeStep_flat.
Qed.

End VersionOrder.
